(** * GraphQL autocompletion: a shallow embedding of
      [getAutocompleteSuggestions] and its helpers.

    The development follows the source file function by function.  JavaScript
    values that may be [null] or [undefined] are options (the source never
    tells the two apart), strings are [string], arrays are lists.  A
    property read on a value that may be [null] is a [match] whose [None]
    branch is what the guard of the source does, so a function that needs no
    other branch cannot raise.  The loops that wait for the lexer carry a
    fuel argument: [None] is a loop that does not end. *)

From Stdlib Require Import Ascii String.
From stdpp Require Import base option list strings gmap.

Local Open Scope string_scope.

(** ** The schema, as the [graphql] package exposes it *)

(** A type object is referred to by its name (a schema holds one object per
    name); [GraphQLList] and [GraphQLNonNull] are the two wrappers. *)
Inductive GraphQLType :=
  | NamedType (typeName : string)
  | GraphQLList (ofType : GraphQLType)
  | GraphQLNonNull (ofType : GraphQLType).

Global Instance GraphQLType_eq_dec : EqDecision GraphQLType.
Proof. solve_decision. Defined.

Record GraphQLArgument := mkArgument {
  arg_name : string;
  arg_type : GraphQLType;
  arg_description : option string
}.

Record GraphQLField := mkField {
  field_name : string;
  field_type : GraphQLType;
  field_description : option string;
  field_args : list GraphQLArgument;
  field_isDeprecated : option bool;
  field_deprecationReason : option string
}.

Record GraphQLInputField := mkInputField {
  ifield_name : string;
  ifield_type : GraphQLType;
  ifield_description : option string
}.

Record GraphQLEnumValue := mkEnumValue {
  enum_name : string;
  enum_value : string;
  enum_description : option string;
  enum_isDeprecated : option bool;
  enum_deprecationReason : option string
}.

Record GraphQLDirective := mkDirective {
  directive_name : string;
  directive_description : option string;
  directive_locations : list string;
  directive_args : list GraphQLArgument
}.

(** What the classes of named types carry.  [getFields()] returns an object
    keyed by field name; it is kept as the list of its values in insertion
    order, which is what [objectValues] enumerates. *)
Inductive TypeDefinition :=
  | GraphQLScalarType
  | GraphQLObjectType (fields : list GraphQLField) (interfaces : list string)
  | GraphQLInterfaceType (fields : list GraphQLField)
  | GraphQLUnionType (types : list string)
  | GraphQLEnumType (values : list GraphQLEnumValue)
  | GraphQLInputObjectType (fields : list GraphQLInputField).

Record GraphQLNamedType := mkNamedType {
  type_name : string;
  type_description : option string;
  type_definition : TypeDefinition
}.

(** The schema object: each field is the result of the method of the same
    name.  [getTypeMap] is the map from names to type objects, in insertion
    order; [getPossibleTypes] is computed by the package. *)
Record GraphQLSchema := mkSchema {
  getQueryType : option string;
  getMutationType : option string;
  getSubscriptionType : option string;
  getTypeMap : list GraphQLNamedType;
  getDirectives : list GraphQLDirective;
  getPossibleTypes : string -> list string
}.

(** [typeMap[name]] *)
Definition typeMapGet (typeMap : list GraphQLNamedType) (n : string)
  : option GraphQLNamedType :=
  List.find (fun t => String.eqb (type_name t) n) typeMap.

(** [schema.getType(name)]: the type object of that name, if any. *)
Definition getType (schema : GraphQLSchema) (n : string) : option GraphQLType :=
  match typeMapGet (getTypeMap schema) n with
  | Some _ => Some (NamedType n)
  | None => None
  end.

(** [schema.getDirective(name)] *)
Definition getDirective (schema : GraphQLSchema) (n : string)
  : option GraphQLDirective :=
  List.find (fun d => String.eqb (directive_name d) n) (getDirectives schema).

(** The definition behind a named type object. *)
Definition definitionOf (schema : GraphQLSchema) (n : string)
  : option TypeDefinition :=
  type_definition <$> typeMapGet (getTypeMap schema) n.

(** [getNamedType(type)]: strips every wrapper; [null] stays [null]. *)
Fixpoint namedTypeOf (t : GraphQLType) : string :=
  match t with
  | NamedType n => n
  | GraphQLList t' => namedTypeOf t'
  | GraphQLNonNull t' => namedTypeOf t'
  end.

Definition getNamedType (t : option GraphQLType) : option string :=
  namedTypeOf <$> t.

(** [getNullableType(type)]: strips one non-null wrapper. *)
Definition getNullableType (t : option GraphQLType) : option GraphQLType :=
  match t with
  | Some (GraphQLNonNull t') => Some t'
  | other => other
  end.

(** [isAbstractType]: interface or union. *)
Definition isAbstractType (schema : GraphQLSchema) (n : string) : bool :=
  match definitionOf schema n with
  | Some (GraphQLInterfaceType _) | Some (GraphQLUnionType _) => true
  | _ => false
  end.

(** [isCompositeType]: object, interface or union; false on [undefined]. *)
Definition isCompositeType (schema : GraphQLSchema) (n : option string) : bool :=
  match n ≫= definitionOf schema with
  | Some (GraphQLObjectType _ _) | Some (GraphQLInterfaceType _)
  | Some (GraphQLUnionType _) => true
  | _ => false
  end.

(** [isInputType] on a named type object: scalar, enum or input object. *)
Definition isInputType (t : GraphQLNamedType) : bool :=
  match type_definition t with
  | GraphQLScalarType | GraphQLEnumType _ | GraphQLInputObjectType _ => true
  | _ => false
  end.

Definition isCompositeNamedType (t : GraphQLNamedType) : bool :=
  match type_definition t with
  | GraphQLObjectType _ _ | GraphQLInterfaceType _ | GraphQLUnionType _ => true
  | _ => false
  end.

(** A field of an input object type, read as the engine reads any field:
    it has no arguments and no deprecation data. *)
Definition inputFieldAsField (f : GraphQLInputField) : GraphQLField :=
  mkField (ifield_name f) (ifield_type f) (ifield_description f) [] None None.

(** [parentType.getFields instanceof Function ? parentType.getFields() : ...]:
    object, interface and input object types have [getFields]. *)
Definition getFields (schema : GraphQLSchema) (n : string)
  : option (list GraphQLField) :=
  match definitionOf schema n with
  | Some (GraphQLObjectType fs _) | Some (GraphQLInterfaceType fs) => Some fs
  | Some (GraphQLInputObjectType fs) => Some (map inputFieldAsField fs)
  | _ => None
  end.

(** [type.getInterfaces()] of an object type. *)
Definition getInterfaces (schema : GraphQLSchema) (n : string) : list string :=
  match definitionOf schema n with
  | Some (GraphQLObjectType _ ifaces) => ifaces
  | _ => []
  end.

(** The package's constants. *)
Definition GraphQLBoolean : string := "Boolean".

Definition SchemaMetaFieldDef : GraphQLField :=
  mkField "__schema" (GraphQLNonNull (NamedType "__Schema"))
    (Some "Access the current type schema of this server.") [] None None.

Definition TypeMetaFieldDef : GraphQLField :=
  mkField "__type" (NamedType "__Type")
    (Some "Request the type information of a single type.")
    [mkArgument "name" (GraphQLNonNull (NamedType "String")) None] None None.

Definition TypeNameMetaFieldDef : GraphQLField :=
  mkField "__typename" (GraphQLNonNull (NamedType "String"))
    (Some "The name of the current Object type at runtime.") [] None None.

(** ** Parser states, cursor, stream and token *)

(** [State] of the online parser: the fields the completion engine reads
    (the lexer's own bookkeeping in a state is never read by it).
    [prevState] links a state to the enclosing one. *)
#[local] Set Warnings "-register-all".
Inductive State := mkState {
  kind : option string;
  step : nat;
  name : option string;
  type : option string;
  prevState : option State
}.

(** JavaScript truthiness of a [?string]: [null] and [''] are falsy. *)
Definition truthy (s : option string) : bool :=
  match s with
  | Some s' => negb (String.eqb s' "")
  | None => false
  end.

(** [s === 'literal'] for a [?string]. *)
Definition strictEq (s : option string) (lit : string) : bool :=
  match s with
  | Some s' => String.eqb s' lit
  | None => false
  end.

(** [a || b] on strings. *)
Definition orString (a : option string) (b : string) : string :=
  match a with
  | Some s => if truthy a then s else b
  | None => b
  end.

Record Point := mkPoint { row : nat; column : nat }.

(** Modelled from the spec: [CharacterStream], one line of text with the
    column where the current token starts and the current scan column; the
    class itself is not among the sources.  It offers "has more input on
    this line" ([eol] is its negation), "current scan column", "column at
    start of current token" and "current token literal". *)
Record CharacterStream := mkStream {
  sourceText : string;
  startOfToken : nat;
  position : nat
}.

Definition newCharacterStream (line : string) : CharacterStream :=
  mkStream line 0 0.
Definition eol (stream : CharacterStream) : bool :=
  negb (position stream <? String.length (sourceText stream))%nat.
Definition getStartOfToken (stream : CharacterStream) : nat :=
  startOfToken stream.
Definition getCurrentPosition (stream : CharacterStream) : nat :=
  position stream.
Definition current (stream : CharacterStream) : string :=
  String.substring (startOfToken stream)
    (position stream - startOfToken stream) (sourceText stream).

Record ContextToken := mkToken {
  tok_start : nat;
  tok_end : nat;
  tok_string : string;
  tok_state : State;
  tok_style : string
}.

(** [AutocompleteSuggestionType]; a key the source leaves out is [None]. *)
Record Suggestion := mkSuggestion {
  text : string;
  sug_type : option GraphQLType;
  description : option string;
  isDeprecated : option bool;
  deprecationReason : option string
}.

Record TypeInfo := mkTypeInfo {
  ti_type : option GraphQLType;
  parentType : option string;
  inputType : option GraphQLType;
  directiveDef : option GraphQLDirective;
  enumValue : option GraphQLEnumValue;
  fieldDef : option GraphQLField;
  argDef : option GraphQLArgument;
  argDefs : option (list GraphQLArgument);
  objectFieldDefs : option (list GraphQLInputField)
}.

(** The node [getFragmentDefinitions] builds: [name.value] and
    [typeCondition.name.value] are its only varying parts. *)
Record FragmentDefinitionNode := mkFragment {
  frag_name : string;
  frag_typeCondition : string
}.

(** ** What the engine imports and this file does not define

    [onlineParser()] (its [startState] and [token], which in the source
    updates the stream and the state it is given), the helpers of
    [autocompleteUtils] and [doTypesOverlap] of the package.  The engine is
    verified for every implementation of them. *)
Class Collaborators := {
  startState : State;
  token : CharacterStream -> State -> string * CharacterStream * State;
  hintList : Point -> ContextToken -> list Suggestion -> list Suggestion;
  getFieldDef : GraphQLSchema -> string -> string -> option GraphQLField;
  getDefinitionState : State -> option State;
  doTypesOverlap : GraphQLSchema -> string -> string -> bool
}.

(** Modelled from the spec: [objectValues], the values of an object used as
    a map, in insertion order.  Maps are kept as the list of their values. *)
Definition objectValues {A : Type} (obj : list A) : list A := obj.

(** The states from the given one outwards along [prevState]. *)
Fixpoint stateStack (st : State) : list State :=
  match st with
  | mkState _ _ _ _ None => [st]
  | mkState _ _ _ _ (Some p) => st :: stateStack p
  end.

(** Modelled from the spec: [forEachState] of [autocompleteUtils] "first
    collects the chain then iterates from the root to the given state".
    The callback updates variables of the enclosing function; they are the
    accumulator [A]. *)
Definition forEachState {A : Type} (stack : State) (fn : A -> State -> A)
  (init : A) : A :=
  fold_left fn (rev (stateStack stack)) init.

(** [queryText.split('\n')]: at least one line, also for the empty text. *)
Fixpoint split (queryText : string) : list string :=
  match queryText with
  | EmptyString => [""]
  | String c rest =>
      if Ascii.eqb c "010"%char then "" :: split rest
      else match split rest with
           | line :: lines => String c line :: lines
           | [] => [String c ""]
           end
  end.

(** [find(array, predicate)]: the first item the predicate accepts, or
    [null]. *)
Definition find {A : Type} (array : list A) (predicate : A -> bool) : option A :=
  List.find predicate array.

(** [canUseDirective(kind, directive)] *)
Definition indexOfFound (locations : list string) (loc : string) : bool :=
  existsb (String.eqb loc) locations.

Definition canUseDirective (kind : string) (directive : GraphQLDirective) : bool :=
  let locations := directive_locations directive in
  if String.eqb kind "Query" then indexOfFound locations "QUERY"
  else if String.eqb kind "Mutation" then indexOfFound locations "MUTATION"
  else if String.eqb kind "Subscription" then
    indexOfFound locations "SUBSCRIPTION"
  else if String.eqb kind "Field" || String.eqb kind "AliasedField" then
    indexOfFound locations "FIELD"
  else if String.eqb kind "FragmentDefinition" then
    indexOfFound locations "FRAGMENT_DEFINITION"
  else if String.eqb kind "FragmentSpread" then
    indexOfFound locations "FRAGMENT_SPREAD"
  else if String.eqb kind "InlineFragment" then
    indexOfFound locations "INLINE_FRAGMENT"
  else false.

(** Assignments to the variables of [getTypeInfo]. *)
Definition set_type v (i : TypeInfo) : TypeInfo :=
  mkTypeInfo v (parentType i) (inputType i) (directiveDef i) (enumValue i)
    (fieldDef i) (argDef i) (argDefs i) (objectFieldDefs i).
Definition set_parentType v (i : TypeInfo) : TypeInfo :=
  mkTypeInfo (ti_type i) v (inputType i) (directiveDef i) (enumValue i)
    (fieldDef i) (argDef i) (argDefs i) (objectFieldDefs i).
Definition set_inputType v (i : TypeInfo) : TypeInfo :=
  mkTypeInfo (ti_type i) (parentType i) v (directiveDef i) (enumValue i)
    (fieldDef i) (argDef i) (argDefs i) (objectFieldDefs i).
Definition set_directiveDef v (i : TypeInfo) : TypeInfo :=
  mkTypeInfo (ti_type i) (parentType i) (inputType i) v (enumValue i)
    (fieldDef i) (argDef i) (argDefs i) (objectFieldDefs i).
Definition set_enumValue v (i : TypeInfo) : TypeInfo :=
  mkTypeInfo (ti_type i) (parentType i) (inputType i) (directiveDef i) v
    (fieldDef i) (argDef i) (argDefs i) (objectFieldDefs i).
Definition set_fieldDef v (i : TypeInfo) : TypeInfo :=
  mkTypeInfo (ti_type i) (parentType i) (inputType i) (directiveDef i)
    (enumValue i) v (argDef i) (argDefs i) (objectFieldDefs i).
Definition set_argDef v (i : TypeInfo) : TypeInfo :=
  mkTypeInfo (ti_type i) (parentType i) (inputType i) (directiveDef i)
    (enumValue i) (fieldDef i) v (argDefs i) (objectFieldDefs i).
Definition set_argDefs v (i : TypeInfo) : TypeInfo :=
  mkTypeInfo (ti_type i) (parentType i) (inputType i) (directiveDef i)
    (enumValue i) (fieldDef i) (argDef i) v (objectFieldDefs i).
Definition set_objectFieldDefs v (i : TypeInfo) : TypeInfo :=
  mkTypeInfo (ti_type i) (parentType i) (inputType i) (directiveDef i)
    (enumValue i) (fieldDef i) (argDef i) (argDefs i) v.

(** The variables of [getTypeInfo] as declared: all [undefined]. *)
Definition noTypeInfo : TypeInfo :=
  mkTypeInfo None None None None None None None None None.

(** [x ? x : null] for a [?string]: the string when it is truthy. *)
Definition whenTruthy (s : option string) : option string :=
  if truthy s then s else None.

Section Engine.
Context {ext : Collaborators}.

(** *** [getTypeInfo] *)

(** The [for] loop of the ['Argument'] case: the first definition of that
    name replaces [argDef]; without one [argDef] is not assigned. *)
Definition lookupArgDef (argDef : option GraphQLArgument)
    (argDefs : option (list GraphQLArgument)) (state : State)
  : option GraphQLArgument :=
  match argDefs with
  | Some defs =>
      match find defs (fun a => bool_decide (Some (arg_name a) = name state)) with
      | Some a => Some a
      | None => argDef
      end
  | None => argDef
  end.

(** The inner [switch] of the ['Arguments'] case. *)
Definition argDefsFor (schema : GraphQLSchema) (i : TypeInfo) (prev : State)
  : option (list GraphQLArgument) :=
  let k := kind prev in
  if strictEq k "Field" then field_args <$> fieldDef i
  else if strictEq k "Directive" then directive_args <$> directiveDef i
  else if strictEq k "AliasedField" then
    match whenTruthy (name prev) with
    | None => None
    | Some n =>
        let field :=
          match parentType i with
          | Some pt => getFieldDef schema pt n
          | None => None
          end in
        match field with
        | None => None
        | Some f => Some (field_args f)
        end
    end
  else None.

(** The callback [getTypeInfo] passes to [forEachState]: one [switch] on
    [state.kind]. *)
Definition typeInfoVisit (schema : GraphQLSchema) (i : TypeInfo)
    (state : State) : TypeInfo :=
  let k := kind state in
  if strictEq k "Query" || strictEq k "ShortQuery" then
    set_type (NamedType <$> getQueryType schema) i
  else if strictEq k "Mutation" then
    set_type (NamedType <$> getMutationType schema) i
  else if strictEq k "Subscription" then
    set_type (NamedType <$> getSubscriptionType schema) i
  else if strictEq k "InlineFragment" || strictEq k "FragmentDefinition" then
    match whenTruthy (type state) with
    | Some t => set_type (getType schema t) i
    | None => i
    end
  else if strictEq k "Field" || strictEq k "AliasedField" then
    match ti_type i, whenTruthy (name state) with
    | Some _, Some n =>
        let fd :=
          match parentType i with
          | Some pt => getFieldDef schema pt n
          | None => None
          end in
        set_type (field_type <$> fd) (set_fieldDef fd i)
    | _, _ => set_fieldDef None i
    end
  else if strictEq k "SelectionSet" then
    set_parentType (getNamedType (ti_type i)) i
  else if strictEq k "Directive" then
    set_directiveDef
      (match whenTruthy (name state) with
       | Some n => getDirective schema n
       | None => None
       end) i
  else if strictEq k "Arguments" then
    match prevState state with
    | None => set_argDefs None i
    | Some prev => set_argDefs (argDefsFor schema i prev) i
    end
  else if strictEq k "Argument" then
    let argDef' := lookupArgDef (argDef i) (argDefs i) state in
    set_inputType (arg_type <$> argDef') (set_argDef argDef' i)
  else if strictEq k "EnumValue" then
    let enumType := getNamedType (inputType i) in
    set_enumValue
      (match enumType ≫= definitionOf schema with
       | Some (GraphQLEnumType values) =>
           find values (fun val => bool_decide (Some (enum_value val) = name state))
       | _ => None
       end) i
  else if strictEq k "ListValue" then
    let nullableType := getNullableType (inputType i) in
    set_inputType
      (match nullableType with
       | Some (GraphQLList ofType) => Some ofType
       | _ => None
       end) i
  else if strictEq k "ObjectValue" then
    let objectType := getNamedType (inputType i) in
    set_objectFieldDefs
      (match objectType ≫= definitionOf schema with
       | Some (GraphQLInputObjectType fields) => Some fields
       | _ => None
       end) i
  else if strictEq k "ObjectField" then
    let objectField :=
      match whenTruthy (name state), objectFieldDefs i with
      | Some n, Some defs =>
          find defs (fun f => String.eqb (ifield_name f) n)
      | _, _ => None
      end in
    set_inputType (ifield_type <$> objectField) i
  else if strictEq k "NamedType" then
    match whenTruthy (name state) with
    | Some n => set_type (getType schema n) i
    | None => i
    end
  else i.

Definition getTypeInfo (schema : GraphQLSchema) (tokenState : State)
  : TypeInfo :=
  forEachState tokenState (typeInfoVisit schema) noTypeInfo.

(** *** [runOnlineParser] *)

(** [callbackFnType]: the callback sees the stream and the state after
    the token was read, the style and the line index, and may answer
    ['BREAK'] (the boolean).  The variables it assigns in the function
    that built it are threaded as [A]. *)
Definition callbackFnType (A : Type) : Type :=
  A -> CharacterStream -> State -> string -> nat -> A * bool.

(** The [while (!stream.eol())] loop over one line.  [None] stands for a
    loop that is still running when the fuel is spent. *)
Fixpoint lexLine {A : Type} (fuel : nat) (callback : callbackFnType A)
    (i : nat) (stream : CharacterStream) (state : State) (style : string)
    (vars : A) : option (CharacterStream * State * string * A) :=
  if eol stream then Some (stream, state, style, vars)
  else
    match fuel with
    | O => None
    | S fuel' =>
        let '(style', stream', state') := token stream state in
        let '(vars', code) := callback vars stream' state' style' i in
        if code then Some (stream', state', style', vars')
        else lexLine fuel' callback i stream' state' style' vars'
    end.

(** The [for] loop over the lines, from line [i] on. *)
Fixpoint lexLines {A : Type} (fuel : nat) (callback : callbackFnType A)
    (lines : list string) (i : nat) (stream : CharacterStream)
    (state : State) (style : string) (vars : A)
  : option (CharacterStream * State * string * A) :=
  match lines with
  | [] => Some (stream, state, style, vars)
  | line :: rest =>
      match lexLine fuel callback i (newCharacterStream line) state style vars with
      | None => None
      | Some (stream', state', style', vars') =>
          let state'' := if truthy (kind state') then state' else startState in
          lexLines fuel callback rest (S i) stream' state'' style' vars'
      end
  end.

Definition runOnlineParser {A : Type} (fuel : nat) (queryText : string)
    (callback : callbackFnType A) (vars : A) : option (ContextToken * A) :=
  let lines := split queryText in
  match lexLines fuel callback lines 0 (newCharacterStream "") startState "" vars with
  | None => None
  | Some (stream, state, style, vars') =>
      Some (mkToken (getStartOfToken stream) (getCurrentPosition stream)
              (current stream) state style, vars')
  end.

(** *** [getTokenAtPosition] *)

(** [styleAtCursor], [stateAtCursor] and [stringAtCursor]. *)
Record AtCursor := mkAtCursor {
  styleAtCursor : option string;
  stateAtCursor : option State;
  stringAtCursor : option string
}.

Definition nothingAtCursor : AtCursor := mkAtCursor None None None.

(** The arrow function given to [runOnlineParser].  The lexer is a
    function on state values here, so [{...state}] is the value the state
    has at that moment; what the copy shares with the live object is the
    subject of [Module Heap] below. *)
Definition atCursorCallback (cursor : Point) : callbackFnType AtCursor :=
  fun vars stream state style index =>
    if (index =? row cursor)%nat then
      if (column cursor <? getCurrentPosition stream)%nat then (vars, true)
      else (mkAtCursor (Some style) (Some state) (Some (current stream)), false)
    else (vars, false).

(** The object [getTokenAtPosition] returns, from the end-of-scan token
    and the three variables. *)
Definition mergeAtCursor (tk : ContextToken) (vars : AtCursor) : ContextToken :=
  mkToken (tok_start tk) (tok_end tk)
    (orString (stringAtCursor vars) (tok_string tk))
    (default (tok_state tk) (stateAtCursor vars))
    (orString (styleAtCursor vars) (tok_style tk)).

Definition getTokenAtPosition (fuel : nat) (queryText : string)
    (cursor : Point) : option ContextToken :=
  match runOnlineParser fuel queryText (atCursorCallback cursor) nothingAtCursor with
  | None => None
  | Some (tk, vars) => Some (mergeAtCursor tk vars)
  end.

(** *** [getFragmentDefinitions] *)

Definition fragmentCallback : callbackFnType (list FragmentDefinitionNode) :=
  fun fragmentDefs _ state _ _ =>
    match whenTruthy (name state), whenTruthy (type state) with
    | Some n, Some t =>
        if strictEq (kind state) "FragmentDefinition"
        then ((fragmentDefs ++ [mkFragment n t])%list, false)
        else (fragmentDefs, false)
    | _, _ => (fragmentDefs, false)
    end.

Definition getFragmentDefinitions (fuel : nat) (queryText : string)
  : option (list FragmentDefinitionNode) :=
  snd <$> runOnlineParser fuel queryText fragmentCallback [].

(** *** The generators *)

Definition fieldSuggestion (field : GraphQLField) : Suggestion :=
  mkSuggestion (field_name field) (Some (field_type field))
    (field_description field) (field_isDeprecated field)
    (field_deprecationReason field).

Definition getSuggestionsForFieldNames (cursor : Point) (tk : ContextToken)
    (typeInfo : TypeInfo) (schema : GraphQLSchema) : list Suggestion :=
  match parentType typeInfo with
  | Some parentType =>
      let fields :=
        match getFields schema parentType with
        | Some fs => objectValues fs
        | None => []
        end in
      let fields :=
        if isAbstractType schema parentType
        then (fields ++ [TypeNameMetaFieldDef])%list else fields in
      let fields :=
        if bool_decide (Some parentType = getQueryType schema)
        then (fields ++ [SchemaMetaFieldDef; TypeMetaFieldDef])%list else fields in
      hintList cursor tk (map fieldSuggestion fields)
  | None => []
  end.

Definition enumValueSuggestion (namedInputType : string)
    (value : GraphQLEnumValue) : Suggestion :=
  mkSuggestion (enum_name value) (Some (NamedType namedInputType))
    (enum_description value) (enum_isDeprecated value)
    (enum_deprecationReason value).

Definition booleanSuggestions : list Suggestion :=
  [ mkSuggestion "true" (Some (NamedType GraphQLBoolean)) (Some "Not false.")
      None None;
    mkSuggestion "false" (Some (NamedType GraphQLBoolean)) (Some "Not true.")
      None None ].

(** The schema is an argument because a type object is known by its
    name: [instanceof GraphQLEnumType] reads the definition of that name. *)
Definition getSuggestionsForInputValues (schema : GraphQLSchema)
    (cursor : Point) (tk : ContextToken) (typeInfo : TypeInfo)
  : list Suggestion :=
  match getNamedType (inputType typeInfo) with
  | Some namedInputType =>
      match definitionOf schema namedInputType with
      | Some (GraphQLEnumType values) =>
          hintList cursor tk (map (enumValueSuggestion namedInputType) values)
      | _ =>
          if String.eqb namedInputType GraphQLBoolean
          then hintList cursor tk booleanSuggestions
          else []
      end
  | None => []
  end.

(** [possibleIfaceMap[iface.name] = iface]: a key keeps the place of its
    first assignment. *)
Definition ifaceMapSet (possibleIfaceMap : list string) (iface : string)
  : list string :=
  if existsb (String.eqb iface) possibleIfaceMap then possibleIfaceMap
  else (possibleIfaceMap ++ [iface])%list.

Definition descriptionOf (schema : GraphQLSchema) (n : string)
  : option string :=
  typeMapGet (getTypeMap schema) n ≫= type_description.

Definition getSuggestionsForFragmentTypeConditions (cursor : Point)
    (tk : ContextToken) (typeInfo : TypeInfo) (schema : GraphQLSchema)
  : list Suggestion :=
  let possibleTypes : list (string * option string) :=
    match parentType typeInfo with
    | Some parentType =>
        if isAbstractType schema parentType then
          let possibleObjTypes := getPossibleTypes schema parentType in
          let possibleIfaceMap :=
            fold_left
              (fun m type => fold_left ifaceMapSet (getInterfaces schema type) m)
              possibleObjTypes [] in
          map (fun n => (n, descriptionOf schema n))
            (possibleObjTypes ++ objectValues possibleIfaceMap)%list
        else [(parentType, descriptionOf schema parentType)]
    | None =>
        map (fun t => (type_name t, type_description t))
          (List.filter isCompositeNamedType
             (objectValues (getTypeMap schema)))
    end in
  hintList cursor tk
    (map (fun type =>
            mkSuggestion (fst type) None (Some (orString (snd type) ""))
              None None)
       possibleTypes).

(** The predicate of [fragments.filter] in
    [getSuggestionsForFragmentSpread]. *)
Definition relevantFrag (schema : GraphQLSchema) (typeInfo : TypeInfo)
    (defState : option State) (frag : FragmentDefinitionNode) : bool :=
  let typeMap := getTypeMap schema in
  bool_decide (is_Some (typeMapGet typeMap (frag_typeCondition frag)))
  && negb (match defState with
           | Some d =>
               strictEq (kind d) "FragmentDefinition"
               && bool_decide (name d = Some (frag_name frag))
           | None => false
           end)
  && isCompositeType schema (parentType typeInfo)
  && isCompositeType schema (Some (frag_typeCondition frag))
  && match parentType typeInfo with
     | Some pt => doTypesOverlap schema pt (frag_typeCondition frag)
     | None => false
     end.

Definition fragmentSuggestion (frag : FragmentDefinitionNode) : Suggestion :=
  mkSuggestion (frag_name frag) (Some (NamedType (frag_typeCondition frag)))
    (Some ("fragment " ++ frag_name frag ++ " on " ++ frag_typeCondition frag))
    None None.

Definition getSuggestionsForFragmentSpread (fuel : nat) (cursor : Point)
    (tk : ContextToken) (typeInfo : TypeInfo) (schema : GraphQLSchema)
    (queryText : string) : option (list Suggestion) :=
  let defState := getDefinitionState (tok_state tk) in
  match getFragmentDefinitions fuel queryText with
  | None => None
  | Some fragments =>
      let relevantFrags :=
        List.filter (relevantFrag schema typeInfo defState) fragments in
      Some (hintList cursor tk (map fragmentSuggestion relevantFrags))
  end.

Definition getSuggestionsForVariableDefinition (cursor : Point)
    (tk : ContextToken) (schema : GraphQLSchema) : list Suggestion :=
  let inputTypeMap := getTypeMap schema in
  let inputTypes := List.filter isInputType (objectValues inputTypeMap) in
  hintList cursor tk
    (map (fun type =>
            mkSuggestion (type_name type) None (type_description type)
              None None)
       inputTypes).

Definition directiveSuggestion (directive : GraphQLDirective) : Suggestion :=
  mkSuggestion (directive_name directive) None
    (directive_description directive) None None.

Definition getSuggestionsForDirective (cursor : Point) (tk : ContextToken)
    (state : State) (schema : GraphQLSchema) : list Suggestion :=
  match prevState state with
  | Some prev =>
      match whenTruthy (kind prev) with
      | Some stateKind =>
          let directives :=
            List.filter (canUseDirective stateKind) (getDirectives schema) in
          hintList cursor tk (map directiveSuggestion directives)
      | None => []
      end
  | None => []
  end.

(** *** [getAutocompleteSuggestions] *)

Definition literal (s : string) : Suggestion :=
  mkSuggestion s None None None None.

Definition argSuggestion (argDef : GraphQLArgument) : Suggestion :=
  mkSuggestion (arg_name argDef) (Some (arg_type argDef))
    (arg_description argDef) None None.

Definition objectFieldSuggestion (field : GraphQLInputField) : Suggestion :=
  mkSuggestion (ifield_name field) (Some (ifield_type field))
    (ifield_description field) None None.

Definition prevKindIs (state : State) (lit : string) : bool :=
  match prevState state with
  | Some prev => strictEq (kind prev) lit
  | None => false
  end.

(** The body of [getAutocompleteSuggestions] from [const kind] on: the
    chain of [if]s over the unwrapped [state], with the [typeInfo]
    computed before it. *)
Definition suggestionsAt (fuel : nat) (schema : GraphQLSchema)
    (queryText : string) (cursor : Point) (tk : ContextToken)
    (state : State) (typeInfo : TypeInfo) : option (list Suggestion) :=
  let kind := kind state in
  let step := step state in
  if strictEq kind "Document" then
    Some (hintList cursor tk
            [literal "query"; literal "mutation"; literal "subscription";
             literal "fragment"; literal "{"])
  else if strictEq kind "SelectionSet" || strictEq kind "Field"
          || strictEq kind "AliasedField" then
    Some (getSuggestionsForFieldNames cursor tk typeInfo schema)
  else
    match (if strictEq kind "Arguments"
              || (strictEq kind "Argument" && (step =? 0)%nat)
           then argDefs typeInfo else None) with
    | Some argDefs => Some (hintList cursor tk (map argSuggestion argDefs))
    | None =>
    match (if strictEq kind "ObjectValue"
              || (strictEq kind "ObjectField" && (step =? 0)%nat)
           then objectFieldDefs typeInfo else None) with
    | Some defs =>
        let objectFields := objectValues defs in
        Some (hintList cursor tk (map objectFieldSuggestion objectFields))
    | None =>
    if strictEq kind "EnumValue"
       || (strictEq kind "ListValue" && (step =? 1)%nat)
       || (strictEq kind "ObjectField" && (step =? 2)%nat)
       || (strictEq kind "Argument" && (step =? 2)%nat) then
      Some (getSuggestionsForInputValues schema cursor tk typeInfo)
    else if (strictEq kind "TypeCondition" && (step =? 1)%nat)
            || (strictEq kind "NamedType" && prevKindIs state "TypeCondition")
    then
      Some (getSuggestionsForFragmentTypeConditions cursor tk typeInfo schema)
    else if strictEq kind "FragmentSpread" && (step =? 1)%nat then
      getSuggestionsForFragmentSpread fuel cursor tk typeInfo schema queryText
    else if (strictEq kind "VariableDefinition" && (step =? 2)%nat)
            || (strictEq kind "ListType" && (step =? 1)%nat)
            || (strictEq kind "NamedType"
                && (prevKindIs state "VariableDefinition"
                    || prevKindIs state "ListType")) then
      Some (getSuggestionsForVariableDefinition cursor tk schema)
    else if strictEq kind "Directive" then
      Some (getSuggestionsForDirective cursor tk state schema)
    else Some []
    end
    end.

(** [token.state.kind === 'Invalid' ? token.state.prevState : token.state] *)
Definition unwrapInvalid (tokenState : State) : option State :=
  if strictEq (kind tokenState) "Invalid" then prevState tokenState
  else Some tokenState.

Definition getAutocompleteSuggestions (fuel : nat) (schema : GraphQLSchema)
    (queryText : string) (cursor : Point) : option (list Suggestion) :=
  match getTokenAtPosition fuel queryText cursor with
  | None => None
  | Some tk =>
      match unwrapInvalid (tok_state tk) with
      | None => Some []
      | Some state =>
          let typeInfo := getTypeInfo schema (tok_state tk) in
          suggestionsAt fuel schema queryText cursor tk state typeInfo
      end
  end.

End Engine.

(** ** The objects behind the states

    In the source a state is an object, [token] updates the live one in
    place and [{...state}] allocates a new object with the same fields:
    [prevState] is copied as a reference.  The heap is the list of the
    objects allocated so far; a reference is an index into it. *)
Module Heap.

Record StateObject := mkObject {
  o_kind : option string;
  o_step : nat;
  o_name : option string;
  o_type : option string;
  o_prevState : option nat
}.

(** [{...state}]: the new object and the heap that holds it. *)
Definition spread (h : list StateObject) (state : nat)
  : option (list StateObject * nat) :=
  match h !! state with
  | Some o => Some ((h ++ [o])%list, length h)
  | None => None
  end.

(** The three variables of [getTokenAtPosition], [stateAtCursor] being a
    reference. *)
Record AtCursor := mkAtCursor {
  styleAtCursor : option string;
  stateAtCursor : option nat;
  stringAtCursor : option string
}.

(** The callback of [getTokenAtPosition] on the heap; [state] is the
    reference to the live state. *)
Definition atCursorCallback (cursor : Point) (h : list StateObject)
    (vars : AtCursor) (stream : CharacterStream) (state : nat)
    (style : string) (index : nat) : list StateObject * AtCursor * bool :=
  if (index =? row cursor)%nat then
    if (column cursor <? getCurrentPosition stream)%nat then (h, vars, true)
    else
      match spread h state with
      | Some (h', copy) =>
          (h', mkAtCursor (Some style) (Some copy) (Some (current stream)),
           false)
      | None => (h, vars, false)
      end
  else (h, vars, false).

(** An assignment to fields of the object at [ref], as [token] does to
    the live state and to states it reaches from it
    ([state.prevState. ... = value]). *)
Definition assign (h : list StateObject) (ref : nat) (o : StateObject)
  : list StateObject :=
  <[ref := o]> h.

(** The state value an object denotes, following [prevState] for at most
    [depth] links; [None] when the chain is longer or leaves the heap. *)
Fixpoint read (depth : nat) (h : list StateObject) (ref : nat)
  : option State :=
  match depth with
  | O => None
  | S depth' =>
      match h !! ref with
      | None => None
      | Some o =>
          match o_prevState o with
          | None =>
              Some (mkState (o_kind o) (o_step o) (o_name o) (o_type o) None)
          | Some p =>
              match read depth' h p with
              | None => None
              | Some prev =>
                  Some (mkState (o_kind o) (o_step o) (o_name o) (o_type o)
                          (Some prev))
              end
          end
      end
  end.

(** The references met by [read]: the object and its ancestors. *)
Fixpoint chain (depth : nat) (h : list StateObject) (ref : nat) : list nat :=
  match depth with
  | O => []
  | S depth' =>
      ref :: match h !! ref ≫= o_prevState with
             | Some p => chain depth' h p
             | None => []
             end
  end.

(** The claim that the copy is deep: after the capture, no assignment to
    an object reachable from the live state changes what the snapshot
    denotes. *)
Definition snapshotIsDeep : Prop :=
  forall (h : list StateObject) (live : nat) h' snap,
    spread h live = Some (h', snap) ->
    forall depth ref o, ref ∈ chain depth h' live ->
      read depth (assign h' ref o) snap = read depth h' snap.

(** A fragment definition being read: the live state is the type
    condition, its [prevState] the enclosing definition. *)
Definition exampleHeap : list StateObject :=
  [ mkObject (Some "TypeCondition") 1 None None (Some 1);
    mkObject (Some "FragmentDefinition") 2 (Some "F") None None ].

End Heap.

(** ** A small instance, to run the engine on concrete inputs *)
Module Demo.

Definition isSpace (c : ascii) : bool := Ascii.eqb c " "%char.

Fixpoint spanLength (p : ascii -> bool) (s : string) : nat :=
  match s with
  | String c rest => if p c then S (spanLength p rest) else 0
  | EmptyString => 0
  end.

Definition remaining (stream : CharacterStream) : string :=
  String.substring (position stream)
    (String.length (sourceText stream) - position stream)
    (sourceText stream).

Definition push (k : string) (st : nat) (state : State) : State :=
  mkState (Some k) st None None (Some state).

Definition start : State := mkState None 0 None None None.

(** The effect of one word on the state, and its style. *)
Definition word (w : string) (state : State) : string * State :=
  let inFragment := strictEq (kind state) "FragmentDefinition" in
  if inFragment && (step state =? 0)%nat then
    ("def", mkState (kind state) 1 (Some w) (type state) (prevState state))
  else if inFragment && (step state =? 1)%nat then
    ("keyword", mkState (kind state) 2 (name state) (type state)
                  (prevState state))
  else if inFragment && (step state =? 2)%nat then
    ("atom", mkState (kind state) 3 (name state) (Some w) (prevState state))
  else if String.eqb w "fragment" then
    ("keyword", push "FragmentDefinition" 0 state)
  else if String.eqb w "query" then ("keyword", push "Query" 1 state)
  else if String.eqb w "{" then ("punctuation", push "SelectionSet" 1 state)
  else if String.eqb w "}" then
    ("punctuation", default start (prevState state))
  else if String.eqb w "..." then
    ("punctuation", push "FragmentSpread" 1 state)
  else if String.eqb w "@" then ("meta", push "Directive" 1 state)
  else if String.eqb w "," then ("", state)
  else if String.eqb w "?" then ("invalidchar", push "Invalid" 0 state)
  else ("property", mkState (Some "Field") 1 (Some w) None (Some state)).

(** A lexer of blank-separated words. *)
Definition token (stream : CharacterStream) (state : State)
  : string * CharacterStream * State :=
  let rest := remaining stream in
  let pos := position stream in
  match rest with
  | String c _ =>
      if isSpace c then
        ("ws", mkStream (sourceText stream) pos
                 (pos + Nat.max 1 (spanLength isSpace rest)), state)
      else
        let n := Nat.max 1 (spanLength (fun c => negb (isSpace c)) rest) in
        let '(style, state') := word (String.substring 0 n rest) state in
        (style, mkStream (sourceText stream) pos (pos + n), state')
  | EmptyString =>
      ("ws", mkStream (sourceText stream) pos (pos + 1), state)
  end.

(** Prefix filter on the token text; blanks and punctuation keep all. *)
Definition hintList (cursor : Point) (tk : ContextToken)
    (candidates : list Suggestion) : list Suggestion :=
  if String.eqb (tok_style tk) "ws" || String.eqb (tok_style tk) "punctuation"
     || String.eqb (tok_string tk) ""
  then candidates
  else List.filter (fun s => String.prefix (tok_string tk) (text s)) candidates.

Definition getFieldDef (schema : GraphQLSchema) (parentType fieldName : string)
  : option GraphQLField :=
  match getFields schema parentType with
  | Some fs => List.find (fun f => String.eqb (field_name f) fieldName) fs
  | None => None
  end.

Definition isDefinition (state : State) : bool :=
  let k := kind state in
  strictEq k "Query" || strictEq k "ShortQuery" || strictEq k "Mutation"
  || strictEq k "Subscription" || strictEq k "FragmentDefinition".

Definition getDefinitionState (tokenState : State) : option State :=
  List.find isDefinition (stateStack tokenState).

Definition doTypesOverlap (schema : GraphQLSchema) (typeA typeB : string)
  : bool :=
  String.eqb typeA typeB
  || existsb (String.eqb typeB) (getPossibleTypes schema typeA)
  || existsb (String.eqb typeA) (getPossibleTypes schema typeB).

Definition collaborators : Collaborators :=
  Build_Collaborators start token hintList getFieldDef getDefinitionState
    doTypesOverlap.

Definition boolean : GraphQLType := NamedType GraphQLBoolean.

Definition heroArgs : list GraphQLArgument :=
  [ mkArgument "episode" (NamedType "Episode") (Some "which film");
    mkArgument "flag" boolean None ].

Definition characterFields : list GraphQLField :=
  [ mkField "name" (NamedType "String") (Some "The name.") [] (Some false)
      None ].

Definition typeMap : list GraphQLNamedType :=
  [ mkNamedType "Query" None
      (GraphQLObjectType
         [ mkField "hero" (NamedType "Character") None heroArgs (Some false)
             None ] []);
    mkNamedType "Character" (Some "A character.")
      (GraphQLInterfaceType characterFields);
    mkNamedType "Human" None (GraphQLObjectType characterFields ["Character"]);
    mkNamedType "Episode" None
      (GraphQLEnumType
         [ mkEnumValue "NEWHOPE" "NEWHOPE" (Some "1977") (Some false) None;
           mkEnumValue "EMPIRE" "EMPIRE" None (Some true) (Some "later") ]);
    mkNamedType "Boolean" None GraphQLScalarType;
    mkNamedType "String" None GraphQLScalarType ].

Definition skip : GraphQLDirective :=
  mkDirective "skip" None ["FIELD"; "FRAGMENT_SPREAD"; "INLINE_FRAGMENT"]
    [mkArgument "if" (GraphQLNonNull boolean) None].

Definition onFragment : GraphQLDirective :=
  mkDirective "onFragment" None ["FRAGMENT_DEFINITION"] [].

Definition schema : GraphQLSchema :=
  mkSchema (Some "Query") None None typeMap [skip; onFragment]
    (fun n => if String.eqb n "Character" then ["Human"] else []).

End Demo.

(** A lexer that announces every character with a token of no width: the
    first call at a position returns the style [mark] without consuming,
    the next call consumes one character. *)
Module Stutter.

Definition start : State := mkState (Some "Document") 0 None None None.

Definition token (stream : CharacterStream) (state : State)
  : string * CharacterStream * State :=
  let pos := position stream in
  if (step state =? 0)%nat then
    ("mark", mkStream (sourceText stream) pos pos,
     mkState (kind state) 1 (name state) (type state) (prevState state))
  else
    ("char", mkStream (sourceText stream) pos (pos + 1),
     mkState (kind state) 0 (name state) (type state) (prevState state)).

Definition collaborators : Collaborators :=
  Build_Collaborators start token Demo.hintList Demo.getFieldDef
    Demo.getDefinitionState Demo.doTypesOverlap.

End Stutter.

(** ** The code snippet component

    [CodeSnippet] of [nuclide-commons-ui]: what [render] puts in the column
    of line numbers, and the calls [componentDidMount] makes on the text
    editor, in order.  Rows and lines are integers. *)
Module CodeSnippet.

(** Rows and line numbers are JavaScript numbers, that is doubles; the
    model has the integers among them.  [nearestDouble z] is the double
    nearest to the integer [z], ties going to the even significand of 53
    bits (for magnitudes below 2^1024): what [+], [-] and [++] give for
    the exact result [z] on integer-valued numbers. *)
Definition nearestDouble (z : Z) : Z :=
  let dropped := Z.max 0 (Z.log2 (Z.abs z) - 52) in
  let unit := (2 ^ dropped)%Z in
  let q := (Z.abs z / unit)%Z in
  let r := (Z.abs z mod unit)%Z in
  let significand :=
    if (2 * r <? unit)%Z then q
    else if (unit <? 2 * r)%Z then (q + 1)%Z
    else if Z.even q then q else (q + 1)%Z in
  (Z.sgn z * (significand * unit))%Z.

Definition add (a b : Z) : Z := nearestDouble (a + b).
Definition sub (a b : Z) : Z := nearestDouble (a - b).

Record BufferPoint := mkBufferPoint { p_row : Z; p_column : Z }.

Record BufferRange := mkBufferRange {
  r_start : BufferPoint;
  r_end : BufferPoint
}.

Record Props := mkProps {
  grammar : option string;
  highlights : option (list BufferRange);
  startLine : Z;
  endLine : Z
}.

(** A call on the editor.  A marker is known by the range it was made
    for. *)
Inductive EditorCall :=
  | setGrammar (grammar : string)
  | markBufferRange (range : (Z * Z) * (Z * Z))
  | decorateMarker (marker : (Z * Z) * (Z * Z)) (type class : string)
  | scrollToBufferPosition (position : Z * Z).

(** The range handed to [markBufferRange] for one highlight. *)
Definition markedRange (startLine : Z) (range : BufferRange)
  : (Z * Z) * (Z * Z) :=
  ((sub (p_row (r_start range)) startLine, p_column (r_start range)),
   (sub (p_row (r_end range)) startLine, p_column (r_end range))).

Definition componentDidMount (props : Props) : list EditorCall :=
  ((match grammar props with
    | Some g => [setGrammar g]
    | None => []
    end)
   ++ match highlights props with
      | Some hs =>
          flat_map
            (fun range =>
               let marker := markedRange (startLine props) range in
               [ markBufferRange marker;
                 decorateMarker marker "highlight" "code-snippet-highlight" ])
            hs
          ++ match hs with
             | first :: _ =>
                 [ scrollToBufferPosition
                     (add (sub (p_row (r_end first)) (startLine props)) 1,
                      p_column (r_end first)) ]
             | [] => []
             end
      | None => []
      end)%list.




End CodeSnippet.

(** ** Definitions used to state the properties *)

(** The table of directive locations, as the specification gives it: the
    location that the kind of the enclosing construct implies. *)
Definition locationOfKind (kind : string) : option string :=
  if String.eqb kind "Query" then Some "QUERY"
  else if String.eqb kind "Mutation" then Some "MUTATION"
  else if String.eqb kind "Subscription" then Some "SUBSCRIPTION"
  else if String.eqb kind "Field" then Some "FIELD"
  else if String.eqb kind "AliasedField" then Some "FIELD"
  else if String.eqb kind "FragmentDefinition" then Some "FRAGMENT_DEFINITION"
  else if String.eqb kind "FragmentSpread" then Some "FRAGMENT_SPREAD"
  else if String.eqb kind "InlineFragment" then Some "INLINE_FRAGMENT"
  else None.

(** The fields a parent type declares itself ([[]] for a type without
    [getFields]). *)
Definition ownFields (schema : GraphQLSchema) (parentType : string)
  : list GraphQLField :=
  default [] (getFields schema parentType).

(** The lexer consumes input: a call of [token] on a stream that is not at
    the end of its line leaves the text alone and moves the position on. *)
Definition advances (ext : Collaborators) : Prop :=
  forall stream state,
    eol stream = false ->
    sourceText (token stream state).1.2 = sourceText stream
    /\ position stream < position (token stream state).1.2.

(** A newline, and the texts of the examples. *)
Definition newline : string := String "010"%char "".

(** Every branch of the dispatcher returns the empty list or a list that
    went through [hintList]. *)
Definition degraded {ext : Collaborators} (cursor : Point) (tk : ContextToken)
    (suggestions : list Suggestion) : Prop :=
  suggestions = [] \/ exists raw, suggestions = hintList cursor tk raw.

(** The lines put together again, a newline between two of them. *)
Fixpoint join (lines : list string) : string :=
  match lines with
  | [] => ""
  | [line] => line
  | line :: rest => line ++ newline ++ join rest
  end.

(** A newline occurs in the string. *)
Fixpoint hasNewline (s : string) : bool :=
  match s with
  | EmptyString => false
  | String c rest => Ascii.eqb c "010"%char || hasNewline rest
  end.

(** The lexer stays on its line: [token] does not move the position past
    the end of the text of the stream. *)
Definition staysInLine (ext : Collaborators) : Prop :=
  forall stream state,
    eol stream = false ->
    sourceText (token stream state).1.2 = sourceText stream
    /\ position (token stream state).1.2 <= String.length (sourceText stream).

(** The case labels of the [switch] of [getTypeInfo]. *)
Definition typeInfoKinds : list string :=
  [ "Query"; "ShortQuery"; "Mutation"; "Subscription"; "InlineFragment";
    "FragmentDefinition"; "Field"; "AliasedField"; "SelectionSet";
    "Directive"; "Arguments"; "Argument"; "EnumValue"; "ListValue";
    "ObjectValue"; "ObjectField"; "NamedType" ].

(** The kinds the [if]s of [getAutocompleteSuggestions] test. *)
Definition dispatchedKinds : list string :=
  [ "Document"; "SelectionSet"; "Field"; "AliasedField"; "Arguments";
    "Argument"; "ObjectValue"; "ObjectField"; "EnumValue"; "ListValue";
    "TypeCondition"; "NamedType"; "FragmentSpread"; "VariableDefinition";
    "ListType"; "Directive" ].

(** The ranges marked and the markers decorated by a sequence of editor
    calls, in order. *)
Definition marksOf (calls : list CodeSnippet.EditorCall)
  : list ((Z * Z) * (Z * Z)) :=
  flat_map (fun call =>
              match call with
              | CodeSnippet.markBufferRange range => [range]
              | _ => []
              end) calls.

Definition decorationsOf (calls : list CodeSnippet.EditorCall)
  : list ((Z * Z) * (Z * Z)) :=
  flat_map (fun call =>
              match call with
              | CodeSnippet.decorateMarker marker _ _ => [marker]
              | _ => []
              end) calls.

Definition scrollsOf (calls : list CodeSnippet.EditorCall) : list (Z * Z) :=
  flat_map (fun call =>
              match call with
              | CodeSnippet.scrollToBufferPosition position => [position]
              | _ => []
              end) calls.

(** The candidate of a type name in [getSuggestionsForFragmentTypeConditions]. *)
Definition typeNameSuggestion (n : string) (description : option string)
  : Suggestion :=
  mkSuggestion n None (Some (orString description "")) None None.

(** The inputs of the examples. *)

(** The state after [{ ?]: an Invalid state over the selection set. *)
Definition invalidToken : ContextToken :=
  mkToken 2 3 "?"
    (mkState (Some "Invalid") 0 None None
       (Some (mkState (Some "SelectionSet") 1 None None (Some Demo.start))))
    "invalidchar".

Definition spreadText : string :=
  "fragment F on Character { name } query { hero { ... ".

Definition characterContext : TypeInfo :=
  set_parentType (Some "Character") noTypeInfo.

Definition booleanContext : TypeInfo :=
  set_inputType (Some Demo.boolean) noTypeInfo.

Definition twoLines : string := "{" ++ newline ++ "hero".

(** [hero(flag: ...)] with a second Argument state, of an unknown name,
    over the first. *)
Definition heroArguments : State :=
  mkState (Some "Arguments") 1 None None
    (Some (mkState (Some "Field") 1 (Some "hero") None
       (Some (mkState (Some "SelectionSet") 1 None None
          (Some (mkState (Some "Query") 1 None None None)))))).

Definition flagArgument : State :=
  mkState (Some "Argument") 2 (Some "flag") None (Some heroArguments).

Definition unknownOverFlag : State :=
  mkState (Some "Argument") 2 (Some "nope") None (Some flagArgument).

Definition unknownArgument : State :=
  mkState (Some "Argument") 2 (Some "nope") None (Some heroArguments).

(** A blank token, which the hint list does not filter on. *)
Definition blankToken : ContextToken := mkToken 0 1 " " unknownOverFlag "ws".

(** A query on [hero], state by state, and contexts for it. *)
Definition queryState : State := mkState (Some "Query") 1 None None None.

Definition selectionState : State :=
  mkState (Some "SelectionSet") 1 None None (Some queryState).

Definition heroFieldState : State :=
  mkState (Some "Field") 1 (Some "hero") None (Some selectionState).

Definition heroSelection : State :=
  mkState (Some "SelectionSet") 1 None None (Some heroFieldState).

Definition heroFieldDef : GraphQLField :=
  mkField "hero" (NamedType "Character") None Demo.heroArgs (Some false) None.

Definition heroContext : TypeInfo :=
  set_argDefs (Some Demo.heroArgs) noTypeInfo.

(** An argument between its name and its value, and a named type in a type
    condition. *)
Definition colonArgument : State :=
  mkState (Some "Argument") 1 (Some "flag") None (Some heroArguments).

Definition conditionType : State :=
  mkState (Some "NamedType") 0 None None
    (Some (mkState (Some "TypeCondition") 1 None None None)).

(** A snippet of the lines 10 to 12 with one highlight. *)
Definition snippetProps : CodeSnippet.Props :=
  CodeSnippet.mkProps None
    (Some [ CodeSnippet.mkBufferRange (CodeSnippet.mkBufferPoint 11 2)
              (CodeSnippet.mkBufferPoint 11 6) ])
    10 12.

(** Literals and an unknown directive in the query on [hero]. *)
Definition listUnderFlag : State :=
  mkState (Some "ListValue") 1 None None (Some flagArgument).

Definition objectFieldX : State :=
  mkState (Some "ObjectField") 0 (Some "x") None None.

Definition empireValue : State :=
  mkState (Some "EnumValue") 0 (Some "EMPIRE") None None.

Definition episodeContext : TypeInfo :=
  set_inputType (Some (NamedType "Episode")) noTypeInfo.

Definition unknownDirective : State :=
  mkState (Some "Directive") 1 (Some "nope") None (Some heroFieldState).

Definition unknownDirectiveArguments : State :=
  mkState (Some "Arguments") 0 None None (Some unknownDirective).

(** ** Properties *)

Section Properties.
Context {ext : Collaborators}.

(** *** Directives *)

Lemma indexOfFound_In locations loc :
  indexOfFound locations loc = true <-> In loc locations.
Proof.
  unfold indexOfFound. rewrite existsb_exists. split.
  - intros (x & Hin & Heq). apply String.eqb_eq in Heq. now subst.
  - intros Hin. exists loc. split; [assumption | apply String.eqb_refl].
Qed.

Lemma canUseDirective_location kind directive :
  canUseDirective kind directive =
  match locationOfKind kind with
  | Some loc => indexOfFound (directive_locations directive) loc
  | None => false
  end.
Proof.
  unfold canUseDirective, locationOfKind.
  repeat (destruct (String.eqb kind _); simpl; try reflexivity).
Qed.

(** C6. A directive is among the raw candidates of a directive-name
    position exactly when it is a directive of the schema, there is an
    enclosing state, and the kind of that state maps, under the table
    Query→QUERY, Mutation→MUTATION, Subscription→SUBSCRIPTION,
    Field/AliasedField→FIELD, FragmentDefinition→FRAGMENT_DEFINITION,
    FragmentSpread→FRAGMENT_SPREAD, InlineFragment→INLINE_FRAGMENT, to a
    location the directive declares; a candidate carries the name of its
    directive as text, with the directive's description.  A kind outside
    the table matches no directive, and without an enclosing state the
    result is the empty list. *)
Theorem directive_candidates_by_location cursor tk state schema :
  (forall kind directive,
      canUseDirective kind directive = true <->
      exists loc, locationOfKind kind = Some loc
                  /\ In loc (directive_locations directive))
  /\ (exists raw : list GraphQLDirective,
        (forall directive,
            In directive raw <->
            In directive (getDirectives schema)
            /\ exists prev k loc,
                 prevState state = Some prev /\ kind prev = Some k
                 /\ locationOfKind k = Some loc
                 /\ In loc (directive_locations directive))
        /\ (getSuggestionsForDirective cursor tk state schema
            = hintList cursor tk
                (map (fun directive =>
                        mkSuggestion (directive_name directive) None
                          (directive_description directive) None None)
                   raw)
            \/ raw = []
               /\ getSuggestionsForDirective cursor tk state schema = []))
  /\ (prevState state = None ->
      getSuggestionsForDirective cursor tk state schema = []).
Proof.
  assert (Hcan : forall kind directive,
             canUseDirective kind directive = true <->
             exists loc, locationOfKind kind = Some loc
                         /\ In loc (directive_locations directive)).
  { intros k d. rewrite canUseDirective_location.
    destruct (locationOfKind k) as [loc|].
    - rewrite indexOfFound_In. split.
      + intros Hin. exists loc. auto.
      + intros (loc' & Heq & Hin). now injection Heq as ->.
    - split; [discriminate | intros (loc & Heq & _); discriminate]. }
  split; [exact Hcan | split].
  - unfold getSuggestionsForDirective.
    destruct (prevState state) as [prev|] eqn:Hprev.
    + destruct (kind prev) as [k|] eqn:Hkind; unfold whenTruthy; simpl.
      * destruct (negb (String.eqb k "")) eqn:Hk.
        -- exists (List.filter (canUseDirective k) (getDirectives schema)).
           split; [| now left].
           intros d. rewrite filter_In, Hcan. split.
           ++ intros (Hin & loc & Hloc & Hd).
              split; [assumption |]. exists prev, k, loc. auto.
           ++ intros (Hin & prev' & k' & loc & Hp & Hk' & Hloc & Hd).
              injection Hp as <-. rewrite Hkind in Hk'. injection Hk' as <-.
              split; [assumption |]. exists loc. auto.
        -- exists []. split; [| now right].
           intros d. split; [intros [] |].
           intros (_ & prev' & k' & loc & Hp & Hk' & Hloc & _).
           injection Hp as <-. rewrite Hkind in Hk'. injection Hk' as <-.
           apply negb_false_iff, String.eqb_eq in Hk. subst k.
           discriminate Hloc.
      * exists []. split; [| now right].
        intros d. split; [intros [] |].
        intros (_ & prev' & k' & loc & Hp & Hk' & _).
        injection Hp as <-. rewrite Hkind in Hk'. discriminate.
    + exists []. split; [| now right].
      intros d. split; [intros [] |].
      intros (_ & prev' & k' & loc & Hp & _). discriminate.
  - intros Hprev. unfold getSuggestionsForDirective. now rewrite Hprev.
Qed.

(** *** Field names *)

(** C5. At a field-name position the raw candidates are the parent type's
    own fields, followed by [__typename] when the parent type is abstract,
    followed by [__schema] and [__type] when the parent type is the query
    root type of the schema; each candidate carries the name of its field as
    text, with the field's type, description and deprecation data.  With no
    parent type the result is empty. *)
Theorem field_name_candidates cursor tk typeInfo schema :
  match parentType typeInfo with
  | None => getSuggestionsForFieldNames cursor tk typeInfo schema = []
  | Some parent =>
      getSuggestionsForFieldNames cursor tk typeInfo schema
      = hintList cursor tk
          (map (fun field =>
                  mkSuggestion (field_name field) (Some (field_type field))
                    (field_description field) (field_isDeprecated field)
                    (field_deprecationReason field))
             (ownFields schema parent
              ++ (if isAbstractType schema parent
                  then [TypeNameMetaFieldDef] else [])
              ++ (if bool_decide (getQueryType schema = Some parent)
                  then [SchemaMetaFieldDef; TypeMetaFieldDef] else []))%list)
  end
  /\ field_name TypeNameMetaFieldDef = "__typename"
  /\ field_name SchemaMetaFieldDef = "__schema"
  /\ field_name TypeMetaFieldDef = "__type".
Proof.
  split; [| repeat split; reflexivity].
  unfold getSuggestionsForFieldNames, ownFields, objectValues.
  destruct (parentType typeInfo) as [parent|]; [| reflexivity].
  assert (Hq : bool_decide (Some parent = getQueryType schema)
               = bool_decide (getQueryType schema = Some parent)).
  { apply bool_decide_ext. split; intros; congruence. }
  rewrite Hq.
  destruct (getFields schema parent) as [fs|]; simpl;
    destruct (isAbstractType schema parent);
    destruct (bool_decide (getQueryType schema = Some parent));
    simpl; rewrite <- ?app_assoc, ?app_nil_r; reflexivity.
Qed.

(** *** Input values *)

(** C8. At an input-value position: when the named input type is an enum
    type, the raw candidates are its declared members, each with its name,
    description and deprecation data, typed by the enum; when it is the
    boolean type they are the literals [true] and [false], in that order,
    with their fixed descriptions; in every other case the result is the
    empty list. *)
Theorem input_value_candidates schema cursor tk typeInfo :
  (forall n values,
      getNamedType (inputType typeInfo) = Some n ->
      definitionOf schema n = Some (GraphQLEnumType values) ->
      getSuggestionsForInputValues schema cursor tk typeInfo
      = hintList cursor tk
          (map (fun value =>
                  mkSuggestion (enum_name value) (Some (NamedType n))
                    (enum_description value) (enum_isDeprecated value)
                    (enum_deprecationReason value))
               values))
  /\ (getNamedType (inputType typeInfo) = Some GraphQLBoolean ->
      (forall values,
          definitionOf schema GraphQLBoolean <> Some (GraphQLEnumType values)) ->
      getSuggestionsForInputValues schema cursor tk typeInfo
      = hintList cursor tk
          [ mkSuggestion "true" (Some (NamedType GraphQLBoolean))
              (Some "Not false.") None None;
            mkSuggestion "false" (Some (NamedType GraphQLBoolean))
              (Some "Not true.") None None ])
  /\ ((forall n, getNamedType (inputType typeInfo) = Some n ->
                 n <> GraphQLBoolean
                 /\ forall values,
                      definitionOf schema n <> Some (GraphQLEnumType values)) ->
      getSuggestionsForInputValues schema cursor tk typeInfo = []).
Proof.
  unfold getSuggestionsForInputValues. repeat split.
  - intros n values -> ->. reflexivity.
  - intros -> Hnot.
    destruct (definitionOf schema GraphQLBoolean) as [[]|]; try reflexivity.
    exfalso. eapply Hnot. reflexivity.
  - intros Hother.
    destruct (getNamedType (inputType typeInfo)) as [n|]; [| reflexivity].
    destruct (Hother n eq_refl) as [Hbool Hnot].
    assert (String.eqb n GraphQLBoolean = false) as ->
      by now apply String.eqb_neq.
    destruct (definitionOf schema n) as [[]|]; try reflexivity.
    exfalso. eapply Hnot. reflexivity.
Qed.

(** *** Invalid states *)

Lemma stateStack_prev st prev :
  prevState st = Some prev -> stateStack st = st :: stateStack prev.
Proof. destruct st as [k s n t [p|]]; simpl; congruence. Qed.

Lemma typeInfoVisit_Invalid schema i st :
  kind st = Some "Invalid" -> typeInfoVisit schema i st = i.
Proof. intros H. unfold typeInfoVisit. rewrite H. reflexivity. Qed.

(** The type context of an Invalid state is the one of the state before the
    syntax error: the Invalid state is visited last and matches no case. *)
Lemma getTypeInfo_Invalid schema st valid :
  kind st = Some "Invalid" -> prevState st = Some valid ->
  getTypeInfo schema st = getTypeInfo schema valid.
Proof.
  intros Hkind Hprev. unfold getTypeInfo, forEachState.
  rewrite (stateStack_prev _ _ Hprev). simpl rev.
  rewrite fold_left_app. simpl. now apply typeInfoVisit_Invalid.
Qed.

(** C2. When the state of the located token has kind "Invalid", the
    dispatcher works on its [prevState]: without one it returns the empty
    list; with one, the type context it uses is the type context of that
    valid state, and the suggestions are those of that state. *)
Theorem invalid_state_is_unwrapped fuel schema queryText cursor tk :
  getTokenAtPosition fuel queryText cursor = Some tk ->
  kind (tok_state tk) = Some "Invalid" ->
  match prevState (tok_state tk) with
  | None => getAutocompleteSuggestions fuel schema queryText cursor = Some []
  | Some valid =>
      getTypeInfo schema (tok_state tk) = getTypeInfo schema valid
      /\ getAutocompleteSuggestions fuel schema queryText cursor
         = suggestionsAt fuel schema queryText cursor tk valid
             (getTypeInfo schema valid)
  end.
Proof.
  intros Htok Hkind. unfold getAutocompleteSuggestions, unwrapInvalid.
  rewrite Htok, Hkind. simpl.
  destruct (prevState (tok_state tk)) as [valid|] eqn:Hprev; [| reflexivity].
  rewrite (getTypeInfo_Invalid _ _ _ Hkind Hprev). split; reflexivity.
Qed.

(** *** The fallback of [getTokenAtPosition] *)

Lemma orString_empty b : orString (Some "") b = b.
Proof. reflexivity. Qed.

(** C10. Whether the string, the style and the state of the returned
    token are the captured ones or those of the end-of-scan token is decided
    by truthiness: a captured string (style) that is the empty string falls
    back to the string (style) of the last token scanned, exactly as when
    nothing was captured, and a captured string (style) that is not empty
    is kept; a captured state, an object, is always kept.  The start and
    the end are always those of the last token scanned. *)
Theorem empty_capture_falls_back fuel queryText cursor last vars :
  runOnlineParser fuel queryText (atCursorCallback cursor) nothingAtCursor
  = Some (last, vars) ->
  exists tk,
    getTokenAtPosition fuel queryText cursor = Some tk
    /\ (stringAtCursor vars = Some "" -> tok_string tk = tok_string last)
    /\ (styleAtCursor vars = Some "" -> tok_style tk = tok_style last)
    /\ (forall st, stateAtCursor vars = Some st -> tok_state tk = st)
    /\ (forall s, stringAtCursor vars = Some s -> s <> "" -> tok_string tk = s)
    /\ (forall s, styleAtCursor vars = Some s -> s <> "" -> tok_style tk = s)
    /\ (stringAtCursor vars = None -> tok_string tk = tok_string last)
    /\ (styleAtCursor vars = None -> tok_style tk = tok_style last)
    /\ (stateAtCursor vars = None -> tok_state tk = tok_state last)
    /\ tok_start tk = tok_start last
    /\ tok_end tk = tok_end last.
Proof.
  intros Hrun. unfold getTokenAtPosition. rewrite Hrun.
  eexists. split; [reflexivity |]. unfold mergeAtCursor. simpl.
  assert (Hkeep : forall s b, s <> "" -> orString (Some s) b = s).
  { intros s b Hs. unfold orString, truthy.
    apply String.eqb_neq in Hs. now rewrite Hs. }
  repeat split.
  - intros ->. apply orString_empty.
  - intros ->. apply orString_empty.
  - intros st ->. reflexivity.
  - intros s -> Hs. now apply Hkeep.
  - intros s -> Hs. now apply Hkeep.
  - intros ->. reflexivity.
  - intros ->. reflexivity.
  - intros ->. reflexivity.
Qed.

(** *** Fragment spreads *)

(** C7. A fragment harvested from the document is among the raw candidates
    of a fragment-spread position only if its type condition names a type of
    the schema, it is not the fragment definition the cursor is in (the
    definition state found for the token has kind FragmentDefinition and the
    fragment's name), the parent type and the condition type are both
    composite, and the two overlap; its description is
    [fragment <name> on <type>]. *)
Theorem fragment_spread_candidates fuel cursor tk typeInfo schema queryText
    fragments :
  getFragmentDefinitions fuel queryText = Some fragments ->
  exists raw,
    getSuggestionsForFragmentSpread fuel cursor tk typeInfo schema queryText
    = Some (hintList cursor tk raw)
    /\ forall s, In s raw ->
         exists frag,
           In frag fragments
           /\ text s = frag_name frag
           /\ sug_type s = Some (NamedType (frag_typeCondition frag))
           /\ description s
              = Some ("fragment " ++ frag_name frag ++ " on "
                      ++ frag_typeCondition frag)
           /\ is_Some (typeMapGet (getTypeMap schema) (frag_typeCondition frag))
           /\ ~ (exists d, getDefinitionState (tok_state tk) = Some d
                           /\ kind d = Some "FragmentDefinition"
                           /\ name d = Some (frag_name frag))
           /\ isCompositeType schema (parentType typeInfo) = true
           /\ isCompositeType schema (Some (frag_typeCondition frag)) = true
           /\ exists parent,
                parentType typeInfo = Some parent
                /\ doTypesOverlap schema parent (frag_typeCondition frag) = true.
Proof.
  intros Hfrags. unfold getSuggestionsForFragmentSpread. rewrite Hfrags.
  eexists. split; [reflexivity |].
  intros s Hs. apply in_map_iff in Hs as (frag & <- & Hin).
  apply filter_In in Hin as [Hin Hrel]. exists frag.
  unfold relevantFrag in Hrel.
  repeat (apply andb_true_iff in Hrel as [Hrel ?]).
  apply bool_decide_eq_true in Hrel.
  repeat (split; [first [assumption | reflexivity] |]).
  split.
  - intros (d & Hd & Hk & Hn). rewrite Hd, Hk, Hn in *. simpl in *.
    rewrite bool_decide_true in * by reflexivity. discriminate.
  - repeat (split; [assumption |]).
    destruct (parentType typeInfo) as [parent|]; [| discriminate].
    exists parent. split; [reflexivity | assumption].
Qed.

(** *** Termination of the scan *)

Lemma lexLine_returns {A : Type} (callback : callbackFnType A) i :
  advances ext ->
  forall fuel stream state style vars,
    String.length (sourceText stream) - position stream <= fuel ->
    is_Some (lexLine fuel callback i stream state style vars).
Proof.
  intros Hadv fuel.
  induction fuel as [| fuel IH]; intros stream state style vars Hfuel;
    simpl; destruct (eol stream) eqn:Heol; try (eexists; reflexivity).
  - unfold eol in Heol. apply negb_false_iff, Nat.ltb_lt in Heol. lia.
  - destruct (Hadv stream state Heol) as [Htext Hpos].
    destruct (token stream state) as [[style' stream'] state']. simpl in *.
    destruct (callback vars stream' state' style' i) as [vars' [|]].
    + eexists; reflexivity.
    + apply IH. rewrite Htext. lia.
Qed.

Lemma lexLines_returns {A : Type} (callback : callbackFnType A) fuel :
  advances ext ->
  forall lines i stream state style vars,
    (forall line, In line lines -> String.length line <= fuel) ->
    is_Some (lexLines fuel callback lines i stream state style vars).
Proof.
  intros Hadv lines.
  induction lines as [| line rest IH]; intros i stream state style vars Hlen;
    simpl.
  - eexists; reflexivity.
  - destruct (lexLine_returns callback i Hadv fuel (newCharacterStream line)
                state style vars) as [[[[stream' state'] style'] vars'] ->].
    + simpl. rewrite Nat.sub_0_r. apply Hlen. now left.
    + apply IH. intros l Hl. apply Hlen. now right.
Qed.

Lemma split_line_length queryText :
  forall line, In line (split queryText) ->
               String.length line <= String.length queryText.
Proof.
  induction queryText as [| c rest IH]; simpl; intros line Hin.
  - destruct Hin as [<- | []]. reflexivity.
  - destruct (Ascii.eqb c "010").
    + destruct Hin as [<- | Hin]; simpl; [lia |].
      specialize (IH _ Hin). lia.
    + destruct (split rest) as [| first lines].
      * destruct Hin as [<- | []]. simpl. lia.
      * destruct Hin as [<- | Hin]; simpl.
        -- specialize (IH first (or_introl eq_refl)). lia.
        -- specialize (IH line (or_intror Hin)). lia.
Qed.

Lemma runOnlineParser_returns {A : Type} (callback : callbackFnType A) fuel
    queryText vars :
  advances ext -> String.length queryText <= fuel ->
  is_Some (runOnlineParser fuel queryText callback vars).
Proof.
  intros Hadv Hfuel. unfold runOnlineParser.
  destruct (lexLines_returns callback fuel Hadv (split queryText) 0
              (newCharacterStream "") startState "" vars)
    as [[[[stream state] style] vars'] ->].
  - intros line Hin. apply split_line_length in Hin. lia.
  - eexists; reflexivity.
Qed.

Lemma suggestionsAt_returns fuel schema queryText cursor tk state typeInfo :
  is_Some (getFragmentDefinitions fuel queryText) ->
  exists suggestions,
    suggestionsAt fuel schema queryText cursor tk state typeInfo
    = Some suggestions
    /\ degraded cursor tk suggestions.
Proof.
  intros [fragments Hfrags]. unfold suggestionsAt, degraded.
  repeat match goal with
         | |- context [if ?b then Some _ else _] => destruct b
         | |- context [if ?b then getSuggestionsForFragmentSpread _ _ _ _ _ _
                       else _] => destruct b
         | |- context [match (if ?b then ?x else None) with _ => _ end] =>
             destruct (if b then x else None)
         end;
    try (eexists; split; [reflexivity |]).
  all: first
    [ right; eexists; reflexivity
    | left; reflexivity
    | unfold getSuggestionsForFieldNames;
      destruct (parentType typeInfo);
      first [right; eexists; reflexivity | left; reflexivity]
    | unfold getSuggestionsForInputValues;
      destruct (getNamedType (inputType typeInfo)) as [n|];
      [| left; reflexivity];
      destruct (definitionOf schema n) as [[]|];
      try (right; eexists; reflexivity);
      destruct (String.eqb n GraphQLBoolean);
      first [right; eexists; reflexivity | left; reflexivity]
    | unfold getSuggestionsForFragmentSpread; rewrite Hfrags;
      eexists; split; [reflexivity |]; right; eexists; reflexivity
    | unfold getSuggestionsForDirective;
      destruct (prevState state) as [prev|]; [| left; reflexivity];
      destruct (whenTruthy (kind prev));
      first [right; eexists; reflexivity | left; reflexivity] ].
Qed.

(** C1. With a lexer that consumes input, [getAutocompleteSuggestions]
    returns a list of suggestions for every schema, text and cursor (fuel as
    long as the text is enough for every loop), and the list is empty or the
    result of the hint-list filter. *)
Theorem getAutocompleteSuggestions_returns fuel schema queryText cursor :
  advances ext ->
  String.length queryText <= fuel ->
  exists suggestions,
    getAutocompleteSuggestions fuel schema queryText cursor = Some suggestions
    /\ exists tk, getTokenAtPosition fuel queryText cursor = Some tk
                  /\ degraded cursor tk suggestions.
Proof.
  intros Hadv Hfuel. unfold getAutocompleteSuggestions, getTokenAtPosition.
  destruct (runOnlineParser_returns (atCursorCallback cursor) fuel queryText
              nothingAtCursor Hadv Hfuel) as [[last vars] ->].
  set (tk := mergeAtCursor last vars).
  destruct (unwrapInvalid (tok_state tk)) as [state|].
  - destruct (suggestionsAt_returns fuel schema queryText cursor tk state
                (getTypeInfo schema (tok_state tk))) as (l & Hl & Hd).
    + unfold getFragmentDefinitions.
      destruct (runOnlineParser_returns fragmentCallback fuel queryText []
                  Hadv Hfuel) as [r ->].
      eexists; reflexivity.
    + exists l. split; [assumption |]. exists tk. split; [reflexivity | assumption].
  - exists []. split; [reflexivity |]. exists tk. split; [reflexivity |].
    now left.
Qed.

(** *** The captured variables during the rest of the scan *)

(** A token that passes the cursor on its row: ['BREAK'], and the three
    variables keep their values. *)
Lemma overshoot_breaks cursor vars stream state style :
  column cursor < getCurrentPosition stream ->
  atCursorCallback cursor vars stream state style (row cursor) = (vars, true).
Proof.
  intros Hlt. unfold atCursorCallback. rewrite Nat.eqb_refl.
  apply Nat.ltb_lt in Hlt. now rewrite Hlt.
Qed.

Lemma lexLine_off_row cursor i fuel :
  i <> row cursor ->
  forall stream state style vars stream' state' style' vars',
    lexLine fuel (atCursorCallback cursor) i stream state style vars
    = Some (stream', state', style', vars') ->
    vars' = vars.
Proof.
  intros Hrow. apply Nat.eqb_neq in Hrow.
  induction fuel as [| fuel IH]; intros stream state style vars
    stream' state' style' vars'; simpl;
    (destruct (eol stream); [intros [= _ _ _ <-]; reflexivity |]);
    [discriminate |].
  destruct (token stream state) as [[style1 stream1] state1].
  unfold atCursorCallback at 1. rewrite Hrow. apply IH.
Qed.

(** The lines after the cursor's row are lexed, but the callback assigns
    none of the three variables on them.  (The variables are compared as
    values here; what the captured state shares with the live one is the
    subject of [Heap].) *)
Lemma lexLines_below_cursor cursor fuel lines :
  forall i stream state style vars stream' state' style' vars',
    row cursor < i ->
    lexLines fuel (atCursorCallback cursor) lines i stream state style vars
    = Some (stream', state', style', vars') ->
    vars' = vars.
Proof.
  induction lines as [| line rest IH]; intros i stream state style vars
    stream' state' style' vars' Hrow; simpl.
  - intros [= _ _ _ <-]. reflexivity.
  - destruct (lexLine fuel (atCursorCallback cursor) i
                (newCharacterStream line) state style vars)
      as [[[[stream1 state1] style1] vars1]|] eqn:Hline; [| discriminate].
    apply lexLine_off_row in Hline as ->; [| lia].
    apply IH. lia.
Qed.

(** *** Unresolved names in [getTypeInfo] *)

(** X9. A field whose name the parent type does not know: [fieldDef] and
    [type] are both reset. *)
Lemma unknown_field_resets schema i st parent n :
  kind st = Some "Field" -> name st = Some n -> truthy (Some n) = true ->
  is_Some (ti_type i) -> parentType i = Some parent ->
  getFieldDef schema parent n = None ->
  fieldDef (typeInfoVisit schema i st) = None
  /\ ti_type (typeInfoVisit schema i st) = None.
Proof.
  intros Hk Hn Ht [ty Hty] Hp Hf. unfold typeInfoVisit, whenTruthy.
  rewrite Hk, Hn, Ht, Hty, Hp, Hf. simpl. split; reflexivity.
Qed.

(** An argument whose name matches no definition: [argDef] is what it was
    before the visit, and [inputType] follows it. *)
Lemma unmatched_argument_keeps schema i st defs :
  kind st = Some "Argument" -> argDefs i = Some defs ->
  find defs (fun a => bool_decide (Some (arg_name a) = name st)) = None ->
  argDef (typeInfoVisit schema i st) = argDef i
  /\ inputType (typeInfoVisit schema i st) = arg_type <$> argDef i.
Proof.
  intros Hk Hdefs Hfind. unfold typeInfoVisit, lookupArgDef.
  rewrite Hk, Hdefs, Hfind. simpl. split; reflexivity.
Qed.

End Properties.

(** ** The engine on concrete inputs *)

Lemma demo_advances : advances Demo.collaborators.
Proof.
  intros stream state _. simpl. unfold Demo.token.
  destruct (Demo.remaining stream) as [| c rest]; simpl;
    [split; [reflexivity | lia] |].
  destruct (Demo.isSpace c); simpl; [split; [reflexivity | lia] |].
  match goal with
  | |- context [Demo.word ?w ?s] => destruct (Demo.word w s) as [style state']
  end.
  simpl. split; [reflexivity | lia].
Qed.

Lemma getAutocompleteSuggestions_returns_witness :
  advances Demo.collaborators
  /\ String.length "query { " <= 8
  /\ exists suggestions,
       @getAutocompleteSuggestions Demo.collaborators 8 Demo.schema "query { "
         (mkPoint 0 8) = Some suggestions
       /\ exists tk,
            @getTokenAtPosition Demo.collaborators 8 "query { " (mkPoint 0 8)
            = Some tk
            /\ @degraded Demo.collaborators (mkPoint 0 8) tk suggestions.
Proof.
  split; [exact demo_advances | split; [simpl; lia |]].
  apply (@getAutocompleteSuggestions_returns Demo.collaborators 8 Demo.schema
           "query { " (mkPoint 0 8) demo_advances).
  simpl; lia.
Defined.

Lemma invalid_state_is_unwrapped_witness :
  @getTokenAtPosition Demo.collaborators 3 "{ ?" (mkPoint 0 3)
  = Some invalidToken
  /\ kind (tok_state invalidToken) = Some "Invalid"
  /\ match prevState (tok_state invalidToken) with
     | None =>
         @getAutocompleteSuggestions Demo.collaborators 3 Demo.schema "{ ?"
           (mkPoint 0 3) = Some []
     | Some valid =>
         @getTypeInfo Demo.collaborators Demo.schema (tok_state invalidToken)
         = @getTypeInfo Demo.collaborators Demo.schema valid
         /\ @getAutocompleteSuggestions Demo.collaborators 3 Demo.schema "{ ?"
              (mkPoint 0 3)
            = @suggestionsAt Demo.collaborators 3 Demo.schema "{ ?"
                (mkPoint 0 3) invalidToken valid
                (@getTypeInfo Demo.collaborators Demo.schema valid)
     end.
Proof.
  split; [reflexivity | split; [reflexivity |]].
  apply (@invalid_state_is_unwrapped Demo.collaborators 3 Demo.schema "{ ?"
           (mkPoint 0 3) invalidToken); reflexivity.
Defined.

Lemma empty_capture_falls_back_witness :
  (exists last vars tk,
      @runOnlineParser Stutter.collaborators _ 2 "a"
        (atCursorCallback (mkPoint 0 0)) nothingAtCursor = Some (last, vars)
      /\ stringAtCursor vars = Some "" /\ styleAtCursor vars = Some "mark"
      /\ tok_string last = "a" /\ tok_style last = "char"
      /\ @getTokenAtPosition Stutter.collaborators 2 "a" (mkPoint 0 0)
         = Some tk
      /\ tok_string tk = "a" /\ tok_style tk = "mark")
  /\ (exists last vars tk,
         @runOnlineParser Demo.collaborators _ 7 "{ a , b"
           (atCursorCallback (mkPoint 0 5)) nothingAtCursor = Some (last, vars)
         /\ stringAtCursor vars = Some "," /\ styleAtCursor vars = Some ""
         /\ tok_string last = " " /\ tok_style last = "ws"
         /\ @getTokenAtPosition Demo.collaborators 7 "{ a , b" (mkPoint 0 5)
            = Some tk
         /\ tok_string tk = "," /\ tok_style tk = "ws").
Proof.
  split.
  - destruct (@empty_capture_falls_back Stutter.collaborators 2 "a"
                (mkPoint 0 0)
                (mkToken 0 1 "a" (mkState (Some "Document") 0 None None None)
                   "char")
                (mkAtCursor (Some "mark")
                   (Some (mkState (Some "Document") 1 None None None))
                   (Some "")))
      as (tk & Htk & Hstring & _ & _ & _ & Hstyle & _);
      [vm_compute; reflexivity |].
    eexists _, _, tk.
    split; [vm_compute; reflexivity |].
    repeat (split; [reflexivity |]).
    split; [exact Htk |].
    split; [exact (Hstring eq_refl) | apply Hstyle; [reflexivity | discriminate]].
  - destruct (@empty_capture_falls_back Demo.collaborators 7 "{ a , b"
                (mkPoint 0 5)
                (mkToken 5 6 " "
                   (mkState (Some "Field") 1 (Some "a") None
                      (Some (Demo.push "SelectionSet" 1 Demo.start)))
                   "ws")
                (mkAtCursor (Some "")
                   (Some (mkState (Some "Field") 1 (Some "a") None
                            (Some (Demo.push "SelectionSet" 1 Demo.start))))
                   (Some ",")))
      as (tk & Htk & _ & Hstyle & _ & Hstring & _);
      [vm_compute; reflexivity |].
    eexists _, _, tk.
    split; [vm_compute; reflexivity |].
    repeat (split; [reflexivity |]).
    split; [exact Htk |].
    split; [apply Hstring; [reflexivity | discriminate] | exact (Hstyle eq_refl)].
Defined.

Lemma fragment_spread_candidates_witness :
  @getFragmentDefinitions Demo.collaborators 52 spreadText
  = Some [mkFragment "F" "Character"; mkFragment "F" "Character"]
  /\ exists raw,
       @getSuggestionsForFragmentSpread Demo.collaborators 52 (mkPoint 0 52)
         invalidToken characterContext Demo.schema spreadText
       = Some (@hintList Demo.collaborators (mkPoint 0 52) invalidToken raw)
       /\ forall s, In s raw ->
            exists frag,
              In frag [mkFragment "F" "Character"; mkFragment "F" "Character"]
              /\ text s = frag_name frag
              /\ sug_type s = Some (NamedType (frag_typeCondition frag))
              /\ description s
                 = Some ("fragment " ++ frag_name frag ++ " on "
                         ++ frag_typeCondition frag)
              /\ is_Some (typeMapGet (getTypeMap Demo.schema)
                            (frag_typeCondition frag))
              /\ ~ (exists d,
                       @getDefinitionState Demo.collaborators
                         (tok_state invalidToken) = Some d
                       /\ kind d = Some "FragmentDefinition"
                       /\ name d = Some (frag_name frag))
              /\ isCompositeType Demo.schema (parentType characterContext)
                 = true
              /\ isCompositeType Demo.schema (Some (frag_typeCondition frag))
                 = true
              /\ exists parent,
                   parentType characterContext = Some parent
                   /\ @doTypesOverlap Demo.collaborators Demo.schema parent
                        (frag_typeCondition frag) = true.
Proof.
  split; [vm_compute; reflexivity |].
  apply (@fragment_spread_candidates Demo.collaborators 52 (mkPoint 0 52)
           invalidToken characterContext Demo.schema spreadText).
  vm_compute. reflexivity.
Defined.

Lemma input_value_candidates_witness :
  getNamedType (inputType booleanContext) = Some GraphQLBoolean
  /\ (forall values,
         definitionOf Demo.schema GraphQLBoolean
         <> Some (GraphQLEnumType values))
  /\ @getSuggestionsForInputValues Demo.collaborators Demo.schema (mkPoint 0 0)
       invalidToken booleanContext
     = @hintList Demo.collaborators (mkPoint 0 0) invalidToken
         [ mkSuggestion "true" (Some (NamedType GraphQLBoolean))
             (Some "Not false.") None None;
           mkSuggestion "false" (Some (NamedType GraphQLBoolean))
             (Some "Not true.") None None ].
Proof.
  split; [reflexivity |].
  split; [intros values; vm_compute; discriminate |].
  apply (proj1 (proj2 (@input_value_candidates Demo.collaborators Demo.schema
                         (mkPoint 0 0) invalidToken booleanContext))).
  - reflexivity.
  - intros values. vm_compute. discriminate.
Defined.

(** *** The scan after a ['BREAK'] *)

(** C3. On [{], newline, [hero] with the cursor at row 0, column 0, the
    first token of row 0 ends at column 1: the callback answers ['BREAK']
    and the loop of that line stops with nothing captured.  The loop over
    the lines goes on: row 1 is lexed, and the token returned is [hero], in
    the state of the end of the text. *)
Theorem scan_goes_on_after_break :
  @lexLine Demo.collaborators _ 4 (atCursorCallback (mkPoint 0 0)) 0
    (newCharacterStream "{") Demo.start "" nothingAtCursor
  = Some (mkStream "{" 0 1, Demo.push "SelectionSet" 1 Demo.start,
          "punctuation", nothingAtCursor)
  /\ @getTokenAtPosition Demo.collaborators 4 twoLines (mkPoint 0 0)
     = Some (mkToken 0 4 "hero"
               (mkState (Some "Field") 1 (Some "hero") None
                  (Some (Demo.push "SelectionSet" 1 Demo.start)))
               "property").
Proof. split; vm_compute; reflexivity. Qed.

(** *** A stale argument definition *)

(** The 'Argument' case assigns [argDef] only when a definition is found.
    Directly under the Arguments state an unmatched name leaves [argDef]
    and [inputType] unknown.  On a chain with an Argument state over
    another Argument state, which [getTypeInfo] accepts but the lexer does
    not build, the definition and input type of the outer argument would
    survive. *)
Lemma unmatched_argument_is_stale :
  let fresh := @getTypeInfo Demo.collaborators Demo.schema unknownArgument in
  let stale := @getTypeInfo Demo.collaborators Demo.schema unknownOverFlag in
  (argDef fresh = None /\ inputType fresh = None)
  /\ argDef stale = Some (mkArgument "flag" Demo.boolean None)
  /\ inputType stale = Some Demo.boolean
  /\ @suggestionsAt Demo.collaborators 0 Demo.schema "" (mkPoint 0 1)
       blankToken unknownOverFlag stale
     = Some booleanSuggestions.
Proof. repeat split; vm_compute; reflexivity. Qed.

(** *** The snapshot and the live state *)

Lemma spread_inv (h : list Heap.StateObject) live h' snap :
  Heap.spread h live = Some (h', snap) ->
  exists o, h !! live = Some o /\ h' = (h ++ [o])%list /\ snap = length h.
Proof.
  unfold Heap.spread. destruct (h !! live) as [o|]; [| discriminate].
  intros [= <- <-]. exists o. auto.
Qed.

(** An assignment outside the chain of a reference does not change what
    the reference denotes. *)
Lemma read_assign_frame depth :
  forall (h : list Heap.StateObject) ref o start,
    ref ∉ Heap.chain depth h start ->
    Heap.read depth (Heap.assign h ref o) start = Heap.read depth h start.
Proof.
  induction depth as [| depth IH]; intros h ref o start Hnot; [reflexivity |].
  simpl in *. apply not_elem_of_cons in Hnot as [Hne Hnot].
  unfold Heap.assign at 1. rewrite list_lookup_insert_ne by congruence.
  destruct (h !! start) as [obj|]; [| reflexivity]. simpl in Hnot.
  destruct (Heap.o_prevState obj) as [p|]; [| reflexivity].
  fold (Heap.assign h ref o). now rewrite IH.
Qed.

(** What an object denotes does not change when the heap grows. *)
Lemma read_app depth :
  forall (h extra : list Heap.StateObject) start st,
    Heap.read depth h start = Some st ->
    Heap.read depth (h ++ extra) start = Some st.
Proof.
  induction depth as [| depth IH]; intros h extra start st; [discriminate |].
  simpl. destruct (h !! start) as [obj|] eqn:Hobj; [| discriminate].
  rewrite (lookup_app_l_Some _ _ _ _ Hobj).
  destruct (Heap.o_prevState obj) as [p|]; [| trivial].
  destruct (Heap.read depth h p) as [prev|] eqn:Hprev; [| discriminate].
  now rewrite (IH _ extra _ _ Hprev).
Qed.

(** On the cursor's row, a token that does not pass the cursor is captured
    by [{...state}]. *)
Lemma capture_is_spread cursor (h : list Heap.StateObject) vars stream live
    style :
  getCurrentPosition stream <= column cursor ->
  Heap.atCursorCallback cursor h vars stream live style (row cursor)
  = match Heap.spread h live with
    | Some (h', snap) =>
        (h', Heap.mkAtCursor (Some style) (Some snap) (Some (current stream)),
         false)
    | None => (h, vars, false)
    end.
Proof.
  intros Hpos. unfold Heap.atCursorCallback.
  rewrite Nat.eqb_refl.
  destruct (column cursor <? getCurrentPosition stream)%nat eqn:Hlt;
    [apply Nat.ltb_lt in Hlt; lia | reflexivity].
Qed.

(** The example: the lexer reads the type condition of the fragment and
    stores it in the enclosing definition, the [prevState] of the live
    state, after the capture. *)
Lemma snapshot_is_not_deep : ~ Heap.snapshotIsDeep.
Proof.
  intros Hdeep.
  specialize (Hdeep Heap.exampleHeap 0 _ _ eq_refl 2 1
                (Heap.mkObject (Some "FragmentDefinition") 2 (Some "F")
                   (Some "Character") None)).
  assert (Hin : 1 ∈ Heap.chain 2
                  (Heap.exampleHeap
                     ++ [Heap.mkObject (Some "TypeCondition") 1 None None
                           (Some 1)])%list 0).
  { simpl. rewrite !elem_of_cons. right; left; reflexivity. }
  specialize (Hdeep Hin). vm_compute in Hdeep. discriminate Hdeep.
Qed.

(** What the copy does give.  The snapshot is a shallow copy: a new object
    with the fields of the live state, [prevState] being the same
    reference.  At the capture it denotes the state the live object
    denotes.  Afterwards an assignment to another object (the live state
    among them) leaves the fields of the snapshot as they are, and what the
    snapshot denotes is unchanged by every assignment that touches no state
    of its [prevState] chain. *)
Theorem snapshot_is_shallow (h : list Heap.StateObject) live h' snap :
  Heap.spread h live = Some (h', snap) ->
  h !! snap = None
  /\ live <> snap
  /\ h' !! snap = h !! live
  /\ (forall depth st,
         Heap.read depth h live = Some st -> Heap.read depth h' snap = Some st)
  /\ (forall ref o, ref <> snap -> Heap.assign h' ref o !! snap = h' !! snap)
  /\ (forall depth ref o,
         ref ∉ Heap.chain depth h' snap ->
         Heap.read depth (Heap.assign h' ref o) snap = Heap.read depth h' snap).
Proof.
  intros Hspread.
  destruct (spread_inv _ _ _ _ Hspread) as (obj & Hlive & -> & ->).
  assert (Hsnap : (h ++ [obj])%list !! length h = Some obj).
  { rewrite lookup_app_r, Nat.sub_diag by lia. reflexivity. }
  split; [apply lookup_ge_None_2; lia |].
  split; [apply lookup_lt_Some in Hlive; lia |].
  split; [now rewrite Hlive |].
  split; [| split].
  - intros [| depth] st; [discriminate |]. simpl.
    rewrite Hlive, Hsnap.
    destruct (Heap.o_prevState obj) as [p|]; [| trivial].
    destruct (Heap.read depth h p) as [prev|] eqn:Hprev; [| discriminate].
    now rewrite (read_app _ _ [obj] _ _ Hprev).
  - intros ref o Hne. unfold Heap.assign.
    now rewrite list_lookup_insert_ne.
  - intros depth ref o Hnot. now apply read_assign_frame.
Qed.

Lemma snapshot_is_shallow_witness :
  Heap.spread Heap.exampleHeap 0
  = Some ((Heap.exampleHeap
           ++ [Heap.mkObject (Some "TypeCondition") 1 None None (Some 1)])%list,
          2)
  /\ forall o,
       Heap.assign
         (Heap.exampleHeap
          ++ [Heap.mkObject (Some "TypeCondition") 1 None None (Some 1)])%list
         0 o !! 2
       = Some (Heap.mkObject (Some "TypeCondition") 1 None None (Some 1)).
Proof.
  split; [reflexivity |].
  intros o.
  rewrite (proj1 (proj2 (proj2 (proj2 (proj2
             (snapshot_is_shallow Heap.exampleHeap 0 _ 2 eq_refl))))) 0 o);
    [reflexivity | discriminate].
Defined.

(** C9. The capture on the cursor's row is not a deep copy.  At the blank
    after [on] in [fragment F on Character] the live state is the type
    condition and its [prevState] the fragment definition: the callback
    stores a new object whose [prevState] is that same definition object.
    When the lexer then writes the type read next into the definition, the
    state the snapshot denotes has changed with it. *)
Theorem capture_shares_enclosing_states :
  Heap.atCursorCallback (mkPoint 0 14) Heap.exampleHeap
    (Heap.mkAtCursor None None None)
    (mkStream "fragment F on Character" 13 14) 0 "ws" 0
  = ((Heap.exampleHeap
      ++ [Heap.mkObject (Some "TypeCondition") 1 None None (Some 1)])%list,
     Heap.mkAtCursor (Some "ws") (Some 2) (Some " "), false)
  /\ Heap.read 2
       (Heap.exampleHeap
        ++ [Heap.mkObject (Some "TypeCondition") 1 None None (Some 1)])%list 2
     = Some (mkState (Some "TypeCondition") 1 None None
               (Some (mkState (Some "FragmentDefinition") 2 (Some "F") None
                        None)))
  /\ Heap.read 2
       (Heap.assign
          (Heap.exampleHeap
           ++ [Heap.mkObject (Some "TypeCondition") 1 None None (Some 1)])%list
          1
          (Heap.mkObject (Some "FragmentDefinition") 2 (Some "F")
             (Some "Character") None)) 2
     = Some (mkState (Some "TypeCondition") 1 None None
               (Some (mkState (Some "FragmentDefinition") 2 (Some "F")
                        (Some "Character") None))).
Proof. repeat split; vm_compute; reflexivity. Qed.

(** ** Further properties of the engine *)

Section TypeContext.
Context {ext : Collaborators}.

(** *** [find] and the argument lookup *)

Lemma find_skips {A : Type} (predicate : A -> bool) before x after :
  predicate x = true ->
  (forall y, In y before -> predicate y = false) ->
  find (before ++ x :: after)%list predicate = Some x.
Proof.
  intros Hx. unfold find. induction before as [| b before IH]; intros Hbefore;
    simpl.
  - now rewrite Hx.
  - rewrite (Hbefore b (or_introl eq_refl)). apply IH.
    intros y Hy. apply Hbefore. now right.
Qed.

(** X1. [find] returns the first item the predicate accepts, and [null] exactly
    when it accepts none. *)
Theorem find_returns_first {A : Type} (array : list A) (predicate : A -> bool) :
  match find array predicate with
  | Some x =>
      exists before after,
        array = (before ++ x :: after)%list
        /\ predicate x = true
        /\ forall y, In y before -> predicate y = false
  | None => forall y, In y array -> predicate y = false
  end.
Proof.
  unfold find. induction array as [| a array IH]; simpl.
  - intros y [].
  - destruct (predicate a) eqn:Ha.
    + exists [], array. repeat split; [assumption | intros y []].
    + destruct (List.find predicate array) as [x|].
      * destruct IH as (before & after & -> & Hx & Hbefore).
        exists (a :: before), after. repeat split; [assumption |].
        intros y [<- | Hy]; [assumption | now apply Hbefore].
      * intros y [<- | Hy]; [assumption | now apply IH].
Qed.

(** X2. In the ['Argument'] case the first definition with the name of the
    state wins: it becomes [argDef] and its type the input type, whatever
    [argDef] was and whatever follows it in the list. *)
Theorem first_matching_argument_wins schema i st before a after :
  kind st = Some "Argument" ->
  argDefs i = Some (before ++ a :: after)%list ->
  name st = Some (arg_name a) ->
  (forall b, In b before -> arg_name b <> arg_name a) ->
  argDef (typeInfoVisit schema i st) = Some a
  /\ inputType (typeInfoVisit schema i st) = Some (arg_type a).
Proof.
  intros Hk Hdefs Hn Hbefore. unfold typeInfoVisit, lookupArgDef.
  rewrite Hk, Hdefs, Hn. simpl.
  rewrite find_skips.
  - split; reflexivity.
  - now apply bool_decide_eq_true.
  - intros b Hb. apply bool_decide_eq_false. intros [= Heq].
    now apply (Hbefore b Hb).
Qed.

(** *** States the [switch] does not name *)

Lemma not_in_eqb k (lits : list string) lit :
  ~ In k lits -> In lit lits -> String.eqb k lit = false.
Proof.
  intros Hnot Hin. apply String.eqb_neq. intros ->. now apply Hnot.
Qed.

Lemma typeInfoVisit_other schema i st :
  (forall k, kind st = Some k -> ~ In k typeInfoKinds) ->
  typeInfoVisit schema i st = i.
Proof.
  intros Hother. unfold typeInfoVisit.
  destruct (kind st) as [k|]; [| reflexivity].
  specialize (Hother k eq_refl). unfold strictEq.
  rewrite !(not_in_eqb k typeInfoKinds) by (assumption || (simpl; tauto)).
  reflexivity.
Qed.

Lemma getTypeInfo_link schema st prev :
  prevState st = Some prev ->
  getTypeInfo schema st = typeInfoVisit schema (getTypeInfo schema prev) st.
Proof.
  intros Hprev. unfold getTypeInfo, forEachState.
  rewrite (stateStack_prev _ _ Hprev). simpl rev.
  now rewrite fold_left_app.
Qed.

Lemma getTypeInfo_root schema st :
  prevState st = None ->
  getTypeInfo schema st = typeInfoVisit schema noTypeInfo st.
Proof.
  intros Hprev. unfold getTypeInfo, forEachState.
  destruct st as [k s n t [p|]]; [discriminate | reflexivity].
Qed.

(** X3. A state whose kind is none of the case labels of [getTypeInfo] (a
    Document, a Selection, a TypeCondition, a Variable, a state without a
    kind, ...) adds nothing: its type context is the one of the enclosing
    state, and the empty one when it is the outermost. *)
Theorem unnamed_kinds_keep_context schema st :
  (forall k, kind st = Some k -> ~ In k typeInfoKinds) ->
  getTypeInfo schema st
  = match prevState st with
    | Some prev => getTypeInfo schema prev
    | None => noTypeInfo
    end.
Proof.
  intros Hother. destruct (prevState st) as [prev|] eqn:Hprev.
  - rewrite (getTypeInfo_link _ _ _ Hprev). now apply typeInfoVisit_other.
  - rewrite (getTypeInfo_root _ _ Hprev). now apply typeInfoVisit_other.
Qed.

Lemma visit_Query schema i st :
  kind st = Some "Query" ->
  typeInfoVisit schema i st = set_type (NamedType <$> getQueryType schema) i.
Proof. intros Hk. unfold typeInfoVisit. rewrite Hk. reflexivity. Qed.

Lemma visit_SelectionSet schema i st :
  kind st = Some "SelectionSet" ->
  typeInfoVisit schema i st = set_parentType (getNamedType (ti_type i)) i.
Proof. intros Hk. unfold typeInfoVisit. rewrite Hk. reflexivity. Qed.

Lemma visit_Field schema i st t n parent :
  kind st = Some "Field" -> ti_type i = Some t -> name st = Some n ->
  n <> "" -> parentType i = Some parent ->
  typeInfoVisit schema i st
  = set_type (field_type <$> getFieldDef schema parent n)
      (set_fieldDef (getFieldDef schema parent n) i).
Proof.
  intros Hk Ht Hn Hne Hp. unfold typeInfoVisit, whenTruthy.
  rewrite Hk, Ht, Hn, Hp.
  assert (truthy (Some n) = true) as ->.
  { unfold truthy. apply negb_true_iff. now apply String.eqb_neq. }
  reflexivity.
Qed.

(** X5. The selection set of a field of the query type: the parent type is the
    named type of the field's declared type, list and non-null wrappers
    stripped, and [fieldDef] is the definition [getFieldDef] found. *)
Theorem nested_selection_parent schema queryType fieldName field
    (operation selection fieldState inner : State) :
  kind operation = Some "Query" -> prevState operation = None ->
  kind selection = Some "SelectionSet" -> prevState selection = Some operation ->
  kind fieldState = Some "Field" -> prevState fieldState = Some selection ->
  name fieldState = Some fieldName -> fieldName <> "" ->
  kind inner = Some "SelectionSet" -> prevState inner = Some fieldState ->
  getQueryType schema = Some queryType ->
  getFieldDef schema queryType fieldName = Some field ->
  parentType (getTypeInfo schema inner) = Some (namedTypeOf (field_type field))
  /\ fieldDef (getTypeInfo schema inner) = Some field
  /\ ti_type (getTypeInfo schema inner) = Some (field_type field).
Proof.
  intros Hk0 Hp0 Hk1 Hp1 Hk2 Hp2 Hn Hne Hk3 Hp3 Hq Hf.
  rewrite (getTypeInfo_link _ _ _ Hp3), (visit_SelectionSet _ _ _ Hk3).
  rewrite (getTypeInfo_link _ _ _ Hp2).
  rewrite (getTypeInfo_link _ _ _ Hp1), (visit_SelectionSet _ _ _ Hk1).
  rewrite (getTypeInfo_root _ _ Hp0), (visit_Query _ _ _ Hk0).
  rewrite (visit_Field _ _ _ (NamedType queryType) fieldName queryType Hk2);
    [| now rewrite Hq | assumption | assumption | now rewrite Hq].
  rewrite Hf. repeat split; reflexivity.
Qed.

End TypeContext.

Section Dispatch.
Context {ext : Collaborators}.

(** *** Positions without suggestions *)

(** X11. At an argument-name position (Arguments, or Argument at step 0) whose
    argument definitions are unresolved, and at an input-object field
    position (ObjectValue, or ObjectField at step 0) whose field definitions
    are unresolved, no later rule applies: the result is the empty list. *)
Theorem unresolved_definitions_give_nothing fuel schema queryText cursor tk
    state typeInfo :
  (kind state = Some "Arguments"
   \/ kind state = Some "Argument" /\ step state = 0) /\ argDefs typeInfo = None
  \/ (kind state = Some "ObjectValue"
      \/ kind state = Some "ObjectField" /\ step state = 0)
     /\ objectFieldDefs typeInfo = None ->
  suggestionsAt fuel schema queryText cursor tk state typeInfo = Some [].
Proof.
  unfold suggestionsAt. cbv zeta.
  intros [[[Hk | [Hk Hs]] Hdefs] | [[Hk | [Hk Hs]] Hdefs]];
    rewrite Hk, ?Hs, Hdefs; reflexivity.
Qed.

(** X12. A state whose kind none of the rules of the dispatcher tests (a
    Selection, a Query, an Invalid state, a state without a kind, ...)
    gets the empty list. *)
Theorem undispatched_kinds_give_nothing fuel schema queryText cursor tk state
    typeInfo :
  (forall k, kind state = Some k -> ~ In k dispatchedKinds) ->
  suggestionsAt fuel schema queryText cursor tk state typeInfo = Some [].
Proof.
  intros Hother. unfold suggestionsAt. cbv zeta.
  destruct (kind state) as [k|]; [| reflexivity].
  specialize (Hother k eq_refl). unfold strictEq.
  rewrite !(not_in_eqb k dispatchedKinds) by (assumption || (simpl; tauto)).
  reflexivity.
Qed.

(** X13. The rules that test a step apply at that step only: an Argument or an
    ObjectField between its name and its value (a step other than 0 and 2),
    a ListValue, a TypeCondition, a FragmentSpread or a ListType off step 1
    and a VariableDefinition off step 2 get the empty list. *)
Theorem off_step_gives_nothing fuel schema queryText cursor tk state typeInfo :
  (kind state = Some "Argument" \/ kind state = Some "ObjectField")
  /\ step state <> 0 /\ step state <> 2
  \/ (kind state = Some "ListValue" \/ kind state = Some "TypeCondition"
      \/ kind state = Some "FragmentSpread" \/ kind state = Some "ListType")
     /\ step state <> 1
  \/ kind state = Some "VariableDefinition" /\ step state <> 2 ->
  suggestionsAt fuel schema queryText cursor tk state typeInfo = Some [].
Proof.
  unfold suggestionsAt. cbv zeta.
  intros [[Hk [H0 H2]] | [[Hk H1] | [Hk H2]]].
  - apply Nat.eqb_neq in H0, H2.
    destruct Hk as [Hk | Hk]; rewrite Hk, H0, H2; reflexivity.
  - apply Nat.eqb_neq in H1.
    destruct Hk as [Hk | [Hk | [Hk | Hk]]]; rewrite Hk, H1; reflexivity.
  - apply Nat.eqb_neq in H2. rewrite Hk, H2. reflexivity.
Qed.

(** *** Named types *)

(** X14. A NamedType state is served by the state that encloses it, whatever its
    step: fragment type conditions under a TypeCondition, input types under
    a VariableDefinition or a ListType, and nothing elsewhere or without an
    enclosing state. *)
Theorem named_type_follows_enclosing_state fuel schema queryText cursor tk
    state typeInfo :
  kind state = Some "NamedType" ->
  suggestionsAt fuel schema queryText cursor tk state typeInfo
  = Some
      match prevState state with
      | None => []
      | Some prev =>
          if strictEq (kind prev) "TypeCondition" then
            getSuggestionsForFragmentTypeConditions cursor tk typeInfo schema
          else if strictEq (kind prev) "VariableDefinition"
                  || strictEq (kind prev) "ListType" then
            getSuggestionsForVariableDefinition cursor tk schema
          else []
      end.
Proof.
  intros Hk. unfold suggestionsAt, prevKindIs. cbv zeta. rewrite Hk.
  destruct (prevState state) as [prev|]; [| reflexivity].
  destruct (strictEq (kind prev) "TypeCondition"); [reflexivity |].
  destruct (strictEq (kind prev) "VariableDefinition"); [reflexivity |].
  destruct (strictEq (kind prev) "ListType"); reflexivity.
Qed.

End Dispatch.

Section Scan.
Context {ext : Collaborators}.

(** *** The lines of the text *)

Lemma split_not_empty queryText : split queryText <> [].
Proof.
  destruct queryText as [| c rest]; simpl; [discriminate |].
  destruct (Ascii.eqb c "010"); [discriminate |].
  destruct (split rest); discriminate.
Qed.

Lemma join_first_char c line lines :
  join (String c line :: lines) = String c (join (line :: lines)).
Proof. destruct lines; reflexivity. Qed.

(** X15. [split] cuts the text at its newlines and loses nothing: there is at
    least one line, no line holds a newline, and the lines joined by
    newlines are the text. *)
Theorem split_joins_back queryText :
  split queryText <> []
  /\ (forall line, In line (split queryText) -> hasNewline line = false)
  /\ join (split queryText) = queryText.
Proof.
  split; [apply split_not_empty |].
  induction queryText as [| c rest [IHnl IHjoin]]; simpl.
  - split; [intros line [<- | []]; reflexivity | reflexivity].
  - destruct (Ascii.eqb c "010") eqn:Hc.
    + apply Ascii.eqb_eq in Hc as ->. split.
      * intros line [<- | Hin]; [reflexivity | now apply IHnl].
      * pose proof (split_not_empty rest) as Hne.
        destruct (split rest) as [| first lines]; [contradiction |].
        change (join ("" :: first :: lines))
          with (String "010"%char (join (first :: lines))).
        now rewrite IHjoin.
    + destruct (split rest) as [| first lines] eqn:Hsplit.
      * now pose proof (split_not_empty rest).
      * split.
        -- intros line [<- | Hin]; simpl.
           ++ rewrite Hc. apply IHnl. now left.
           ++ apply IHnl. now right.
        -- rewrite join_first_char. now rewrite IHjoin.
Qed.

(** *** The ends of the scan *)

(** X16. The empty text: whatever the lexer, the cursor and the fuel, the token
    is the empty token of columns 0 to 0 in the start state of the lexer,
    and no fragment is harvested. *)
Theorem empty_text_gives_start_state fuel cursor :
  getTokenAtPosition fuel "" cursor = Some (mkToken 0 0 "" startState "")
  /\ getFragmentDefinitions fuel "" = Some [].
Proof.
  unfold getTokenAtPosition, getFragmentDefinitions, runOnlineParser.
  simpl split. unfold lexLines.
  assert (Hline : forall A (cb : callbackFnType A) (vars : A),
             lexLine fuel cb 0 (newCharacterStream "") startState "" vars
             = Some (newCharacterStream "", startState, "", vars)).
  { intros A cb vars. destruct fuel; reflexivity. }
  rewrite !Hline. split.
  - destruct (truthy (kind startState)); reflexivity.
  - destruct (truthy (kind startState)); reflexivity.
Qed.

Lemma lexLines_end_state {A : Type} (callback : callbackFnType A) fuel lines :
  forall i stream state style vars stream' state' style' vars',
    lexLines fuel callback lines i stream state style vars
    = Some (stream', state', style', vars') ->
    lines = [] /\ state' = state
    \/ truthy (kind state') = true \/ state' = startState.
Proof.
  induction lines as [| line rest IH]; intros i stream state style vars
    stream' state' style' vars'; simpl.
  - intros [= _ <- _ _]. now left.
  - destruct (lexLine fuel callback i (newCharacterStream line) state style
                vars) as [[[[stream1 state1] style1] vars1]|]; [| discriminate].
    intros Hrest. right.
    destruct (IH _ _ _ _ _ _ _ _ _ Hrest) as [[_ ->] | Hend]; [| assumption].
    destruct (truthy (kind state1)) eqn:Hk; [left | right]; trivial.
Qed.

(** X17. Whatever the callback, the state at the end of the scan has a kind or
    is the start state of the lexer: a state without a kind is replaced
    after each line. *)
Theorem scan_ends_in_a_kind_or_the_start {A : Type}
    (callback : callbackFnType A) fuel queryText vars tk vars' :
  runOnlineParser fuel queryText callback vars = Some (tk, vars') ->
  truthy (kind (tok_state tk)) = true \/ tok_state tk = startState.
Proof.
  unfold runOnlineParser.
  destruct (lexLines fuel callback (split queryText) 0 (newCharacterStream "")
              startState "" vars)
    as [[[[stream state] style] vars1]|] eqn:Hscan; [| discriminate].
  intros [= <- _]. simpl.
  destruct (lexLines_end_state _ _ _ _ _ _ _ _ _ _ _ _ Hscan)
    as [[Hnil _] | Hend]; [| assumption].
  now pose proof (split_not_empty queryText).
Qed.

(** *** The cursor and the lines *)

Lemma lexLines_above_cursor cursor fuel lines :
  forall i stream state style vars stream' state' style' vars',
    i + length lines <= row cursor ->
    lexLines fuel (atCursorCallback cursor) lines i stream state style vars
    = Some (stream', state', style', vars') ->
    vars' = vars.
Proof.
  induction lines as [| line rest IH]; intros i stream state style vars
    stream' state' style' vars' Hrow; simpl.
  - intros [= _ _ _ <-]. reflexivity.
  - destruct (lexLine fuel (atCursorCallback cursor) i
                (newCharacterStream line) state style vars)
      as [[[[stream1 state1] style1] vars1]|] eqn:Hline; [| discriminate].
    simpl in Hrow. apply lexLine_off_row in Hline as ->; [| lia].
    apply IH. lia.
Qed.

(** X18. A cursor on a row the text does not have: nothing is captured, and the
    token returned is the token the scan ends on, with its state, string
    and style. *)
Theorem cursor_below_text_gets_last_token fuel queryText cursor last vars :
  length (split queryText) <= row cursor ->
  runOnlineParser fuel queryText (atCursorCallback cursor) nothingAtCursor
  = Some (last, vars) ->
  vars = nothingAtCursor
  /\ getTokenAtPosition fuel queryText cursor = Some last.
Proof.
  intros Hrow Hrun. unfold getTokenAtPosition. rewrite Hrun.
  unfold runOnlineParser in Hrun.
  destruct (lexLines fuel (atCursorCallback cursor) (split queryText) 0
              (newCharacterStream "") startState "" nothingAtCursor)
    as [[[[stream state] style] vars1]|] eqn:Hscan; [| discriminate].
  injection Hrun as <- <-.
  apply lexLines_above_cursor in Hscan as ->; [| simpl; lia].
  split; reflexivity.
Qed.

(** X19. On the cursor's row, with a lexer that stays on its line and a line no
    longer than the cursor's column, the loop never answers ['BREAK']: it
    runs to the end of the line, and the three variables hold the style,
    the state and the string of the last token of the line (they are
    untouched when the line has no token). *)
Theorem line_before_cursor_is_captured cursor fuel :
  staysInLine ext ->
  forall stream state style vars stream' state' style' vars',
    String.length (sourceText stream) <= column cursor ->
    lexLine fuel (atCursorCallback cursor) (row cursor) stream state style vars
    = Some (stream', state', style', vars') ->
    eol stream' = true
    /\ ((stream', state', style', vars') = (stream, state, style, vars)
        \/ vars' = mkAtCursor (Some style') (Some state')
                     (Some (current stream'))).
Proof.
  intros Hstay.
  induction fuel as [| fuel IH]; intros stream state style vars
    stream' state' style' vars' Hlen; simpl;
    destruct (eol stream) eqn:Heol;
    try (intros [= <- <- <- <-]; split; [assumption | now left]);
    [discriminate |].
  destruct (Hstay stream state Heol) as [Htext Hpos].
  destruct (token stream state) as [[style1 stream1] state1]. simpl in *.
  unfold atCursorCallback at 1. rewrite Nat.eqb_refl.
  assert ((column cursor <? getCurrentPosition stream1)%nat = false) as ->.
  { apply Nat.ltb_ge. unfold getCurrentPosition. lia. }
  intros Hrest. apply IH in Hrest as [Hend Hvars]; [| rewrite Htext; lia].
  split; [assumption | right].
  destruct Hvars as [[= -> -> -> ->] | Hvars]; [reflexivity | assumption].
Qed.

(** *** The harvest of fragments *)

Lemma lexLine_keeps {A : Type} (callback : callbackFnType A) (I : A -> Prop) :
  (forall vars stream state style i,
      I vars -> I (callback vars stream state style i).1) ->
  forall fuel i stream state style vars stream' state' style' vars',
    I vars ->
    lexLine fuel callback i stream state style vars
    = Some (stream', state', style', vars') ->
    I vars'.
Proof.
  intros Hcb fuel.
  induction fuel as [| fuel IH]; intros i stream state style vars
    stream' state' style' vars' Hvars; simpl;
    (destruct (eol stream); [intros [= _ _ _ <-]; assumption |]);
    [discriminate |].
  destruct (token stream state) as [[style1 stream1] state1].
  specialize (Hcb vars stream1 state1 style1 i Hvars).
  destruct (callback vars stream1 state1 style1 i) as [vars1 [|]];
    simpl in Hcb.
  - intros [= _ _ _ <-]. assumption.
  - now apply IH.
Qed.

Lemma lexLines_keeps {A : Type} (callback : callbackFnType A) (I : A -> Prop) :
  (forall vars stream state style i,
      I vars -> I (callback vars stream state style i).1) ->
  forall fuel lines i stream state style vars stream' state' style' vars',
    I vars ->
    lexLines fuel callback lines i stream state style vars
    = Some (stream', state', style', vars') ->
    I vars'.
Proof.
  intros Hcb fuel lines.
  induction lines as [| line rest IH]; intros i stream state style vars
    stream' state' style' vars' Hvars; simpl.
  - intros [= _ _ _ <-]. assumption.
  - destruct (lexLine fuel callback i (newCharacterStream line) state style
                vars) as [[[[stream1 state1] style1] vars1]|] eqn:Hline;
      [| discriminate].
    apply (lexLine_keeps callback I Hcb) in Hline; [| assumption].
    now apply IH.
Qed.

Lemma whenTruthy_not_empty s n : whenTruthy s = Some n -> n <> "".
Proof.
  unfold whenTruthy. destruct s as [s'|]; simpl; [| discriminate].
  destruct (String.eqb s' "") eqn:He; simpl; [discriminate |].
  intros [= <-]. now apply String.eqb_neq.
Qed.

(** X21. Every fragment [getFragmentDefinitions] harvests has a name and a type
    condition that are not empty, whatever the lexer and the text. *)
Theorem harvested_fragments_are_named fuel queryText fragments :
  getFragmentDefinitions fuel queryText = Some fragments ->
  forall frag, In frag fragments ->
               frag_name frag <> "" /\ frag_typeCondition frag <> "".
Proof.
  unfold getFragmentDefinitions, runOnlineParser.
  destruct (lexLines fuel fragmentCallback (split queryText) 0
              (newCharacterStream "") startState "" [])
    as [[[[stream state] style] vars]|] eqn:Hscan; [| discriminate].
  simpl. intros [= <-].
  set (named := fun defs : list FragmentDefinitionNode =>
                  forall frag, In frag defs ->
                    frag_name frag <> "" /\ frag_typeCondition frag <> "").
  assert (Hcb : forall defs stream st style i,
             named defs -> named (fragmentCallback defs stream st style i).1).
  { intros defs stream1 st style1 i Hdefs. unfold fragmentCallback.
    destruct (whenTruthy (name st)) as [n|] eqn:Hn; [| assumption].
    destruct (whenTruthy (type st)) as [t|] eqn:Ht; [| assumption].
    destruct (strictEq (kind st) "FragmentDefinition"); [| assumption].
    simpl. intros frag Hin. apply in_app_or in Hin as [Hin | [<- | []]].
    - now apply Hdefs.
    - simpl. split; eapply whenTruthy_not_empty; eassumption. }
  assert (Hnil : named []) by (intros frag []).
  exact (lexLines_keeps fragmentCallback named Hcb _ _ _ _ _ _ _ _ _ _ _
           Hnil Hscan).
Qed.

End Scan.

Section Generators.
Context {ext : Collaborators}.

(** *** Fragment spreads *)

(** X22. Without a composite parent type (no parent type, or a scalar, enum or
    input type) no harvested fragment passes the filter: the hint list gets
    the empty list of candidates. *)
Theorem no_spread_without_composite_parent fuel cursor tk typeInfo schema
    queryText fragments :
  getFragmentDefinitions fuel queryText = Some fragments ->
  isCompositeType schema (parentType typeInfo) = false ->
  getSuggestionsForFragmentSpread fuel cursor tk typeInfo schema queryText
  = Some (hintList cursor tk []).
Proof.
  intros Hfrags Hparent. unfold getSuggestionsForFragmentSpread.
  rewrite Hfrags. do 3 f_equal. clear Hfrags.
  induction fragments as [| frag rest IH]; [reflexivity |]. simpl.
  unfold relevantFrag at 1. rewrite Hparent.
  rewrite andb_false_r. simpl. exact IH.
Qed.

(** X23. Every harvested fragment that meets the conditions of the filter is a
    candidate, and the candidates come in the order of the harvest. *)
Theorem relevant_fragments_are_offered fuel cursor tk typeInfo schema queryText
    fragments parent :
  getFragmentDefinitions fuel queryText = Some fragments ->
  parentType typeInfo = Some parent ->
  isCompositeType schema (Some parent) = true ->
  exists raw,
    getSuggestionsForFragmentSpread fuel cursor tk typeInfo schema queryText
    = Some (hintList cursor tk raw)
    /\ (exists kept, raw = map fragmentSuggestion kept
                     /\ sublist kept fragments)
    /\ forall frag,
         In frag fragments ->
         is_Some (typeMapGet (getTypeMap schema) (frag_typeCondition frag)) ->
         (forall d, getDefinitionState (tok_state tk) = Some d ->
                    kind d = Some "FragmentDefinition" ->
                    name d <> Some (frag_name frag)) ->
         isCompositeType schema (Some (frag_typeCondition frag)) = true ->
         doTypesOverlap schema parent (frag_typeCondition frag) = true ->
         In (fragmentSuggestion frag) raw.
Proof.
  intros Hfrags Hparent Hcomp. unfold getSuggestionsForFragmentSpread.
  rewrite Hfrags. eexists. split; [reflexivity |]. split.
  - eexists. split; [reflexivity |].
    generalize (relevantFrag schema typeInfo (getDefinitionState (tok_state tk))).
    intros keep. clear Hfrags.
    induction fragments as [| frag rest IH]; simpl.
    + constructor.
    + destruct (keep frag); [now apply sublist_skip | now apply sublist_cons].
  - intros frag Hin Hknown Hself Hcond Hoverlap.
    apply in_map, filter_In. split; [assumption |].
    unfold relevantFrag. rewrite Hparent, Hcomp, Hcond, Hoverlap.
    rewrite bool_decide_true by assumption. simpl.
    rewrite !andb_true_r. apply negb_true_iff.
    destruct (getDefinitionState (tok_state tk)) as [d|]; [| reflexivity].
    destruct (strictEq (kind d) "FragmentDefinition") eqn:Hk; [| reflexivity].
    simpl. apply bool_decide_eq_false. apply (Hself d eq_refl).
    unfold strictEq in Hk. destruct (kind d) as [k|]; [| discriminate].
    apply String.eqb_eq in Hk. now subst.
Qed.

(** *** Fragment type conditions under an abstract parent *)

Lemma ifaceMapSet_In m iface x :
  In x (ifaceMapSet m iface) <-> In x m \/ x = iface.
Proof.
  unfold ifaceMapSet.
  destruct (existsb (String.eqb iface) m) eqn:Hex.
  - apply existsb_exists in Hex as (y & Hy & Heq).
    apply String.eqb_eq in Heq. subst y.
    split; [now left | intros [H | ->]; assumption].
  - rewrite in_app_iff. simpl. intuition.
Qed.

Lemma ifaceMapSet_NoDup m iface : NoDup m -> NoDup (ifaceMapSet m iface).
Proof.
  intros Hm. unfold ifaceMapSet.
  destruct (existsb (String.eqb iface) m) eqn:Hex; [assumption |].
  apply NoDup_app. split; [assumption | split].
  - intros x Hx. rewrite list_elem_of_In in Hx. intros Hin.
    apply list_elem_of_singleton in Hin. subst x.
    assert (existsb (String.eqb iface) m = true) as Htrue; [| congruence].
    apply existsb_exists. exists iface. split; [assumption |].
    apply String.eqb_refl.
  - apply NoDup_singleton.
Qed.

Lemma fold_ifaceMapSet ifaces :
  forall m,
    NoDup m ->
    NoDup (fold_left ifaceMapSet ifaces m)
    /\ forall x, In x (fold_left ifaceMapSet ifaces m) <-> In x m \/ In x ifaces.
Proof.
  induction ifaces as [| iface rest IH]; intros m Hm; simpl.
  - split; [assumption | intuition].
  - destruct (IH _ (ifaceMapSet_NoDup m iface Hm)) as [Hnd Hin].
    split; [assumption |].
    intros x. rewrite Hin, ifaceMapSet_In. intuition.
Qed.

Lemma fold_interfaces schema types :
  forall m,
    NoDup m ->
    let result :=
      fold_left
        (fun m type => fold_left ifaceMapSet (getInterfaces schema type) m)
        types m in
    NoDup result
    /\ forall x, In x result <->
                 In x m \/ exists t, In t types /\ In x (getInterfaces schema t).
Proof.
  induction types as [| t rest IH]; intros m Hm; simpl.
  - split; [assumption |]. intros x. split; [now left |].
    intros [H | (t & [] & _)]. assumption.
  - destruct (fold_ifaceMapSet (getInterfaces schema t) m Hm) as [Hnd Hin].
    destruct (IH _ Hnd) as [Hnd' Hin']. split; [assumption |].
    intros x. rewrite Hin', Hin. split.
    + intros [[H | H] | (t' & Ht' & Hx)]; [now left | right | right].
      * exists t. split; [now left | assumption].
      * exists t'. split; [now right | assumption].
    + intros [H | (t' & [<- | Ht'] & Hx)].
      * left. now left.
      * left. now right.
      * right. exists t'. split; assumption.
Qed.

(** X24. Under an abstract parent type the candidates are the possible types of
    the parent, followed by the interfaces those types implement: each such
    interface once, and no other name. *)
Theorem abstract_parent_type_conditions cursor tk typeInfo schema parent :
  parentType typeInfo = Some parent ->
  isAbstractType schema parent = true ->
  exists ifaces,
    getSuggestionsForFragmentTypeConditions cursor tk typeInfo schema
    = hintList cursor tk
        (map (fun n => typeNameSuggestion n (descriptionOf schema n))
           (getPossibleTypes schema parent ++ ifaces)%list)
    /\ NoDup ifaces
    /\ forall n, In n ifaces <->
                 exists t, In t (getPossibleTypes schema parent)
                           /\ In n (getInterfaces schema t).
Proof.
  intros Hparent Habstract.
  unfold getSuggestionsForFragmentTypeConditions, objectValues.
  rewrite Hparent, Habstract.
  destruct (fold_interfaces schema (getPossibleTypes schema parent) []
              NoDup_nil_2) as [Hnd Hin].
  eexists. split; [| split; [exact Hnd |]].
  - rewrite map_map. reflexivity.
  - intros n. rewrite Hin. split; [intros [[] | H]; assumption | now right].
Qed.

End Generators.

(** ** The code snippet component *)

Lemma nearestDouble_exact z :
  (- 2 ^ 53 <= z <= 2 ^ 53)%Z -> CodeSnippet.nearestDouble z = z.
Proof.
  intros Hz.
  assert (z = 2 ^ 53 \/ z = - 2 ^ 53 \/ Z.abs z < 2 ^ 53)%Z
    as [-> | [-> | Hlt]] by lia; [vm_compute; reflexivity .. |].
  unfold CodeSnippet.nearestDouble.
  assert (Z.log2 (Z.abs z) - 52 <= 0)%Z as Hlog.
  { destruct (Z.eq_dec (Z.abs z) 0%Z) as [-> | Hne]; [simpl; lia |].
    assert (Z.log2 (Z.abs z) < 53)%Z; [| lia].
    apply Z.log2_lt_pow2; lia. }
  rewrite Z.max_l by exact Hlog.
  change (2 ^ 0)%Z with 1%Z.
  rewrite Z.div_1_r, Z.mod_1_r. change (2 * 0 <? 1)%Z with true.
  cbv iota. rewrite Z.mul_1_r, Z.mul_comm. apply Z.abs_sgn.
Qed.





(** At the limit the row scrolled to is the end row of the highlight
    itself, not the row after it. *)
Lemma scroll_row_rounds_at_the_limit :
  scrollsOf
    (CodeSnippet.componentDidMount
       (CodeSnippet.mkProps None
          (Some [ CodeSnippet.mkBufferRange
                    (CodeSnippet.mkBufferPoint (2 ^ 53) 0)
                    (CodeSnippet.mkBufferPoint (2 ^ 53) 4) ])
          0 (2 ^ 53)))
  = [((2 ^ 53)%Z, 4%Z)].
Proof. vm_compute. reflexivity. Qed.

Lemma marksOf_app a b : marksOf (a ++ b) = (marksOf a ++ marksOf b)%list.
Proof. apply flat_map_app. Qed.

Lemma decorationsOf_app a b :
  decorationsOf (a ++ b) = (decorationsOf a ++ decorationsOf b)%list.
Proof. apply flat_map_app. Qed.

Lemma scrollsOf_app a b : scrollsOf (a ++ b) = (scrollsOf a ++ scrollsOf b)%list.
Proof. apply flat_map_app. Qed.

(** X26. [componentDidMount] marks one range per highlight, in order, and
    decorates each marker it made and no other.  For a highlight whose rows
    and their distance to [startLine] doubles hold exactly (magnitudes up
    to 2^53), the rows of the marked range are the rows of the highlight
    counted from [startLine], and the columns are kept.  It scrolls exactly
    when there is a highlight: once, as its last call, and, when the row
    after the end of the first highlight counted from [startLine] is exact
    as well, to that row and the end column. *)
Theorem highlights_are_marked_and_decorated props :
  length (marksOf (CodeSnippet.componentDidMount props))
  = length (default [] (CodeSnippet.highlights props))
  /\ decorationsOf (CodeSnippet.componentDidMount props)
     = marksOf (CodeSnippet.componentDidMount props)
  /\ (forall k range,
         default [] (CodeSnippet.highlights props) !! k = Some range ->
         (- 2 ^ 53 <= CodeSnippet.p_row (CodeSnippet.r_start range)
                      - CodeSnippet.startLine props <= 2 ^ 53)%Z ->
         (- 2 ^ 53 <= CodeSnippet.p_row (CodeSnippet.r_end range)
                      - CodeSnippet.startLine props <= 2 ^ 53)%Z ->
         marksOf (CodeSnippet.componentDidMount props) !! k
         = Some (((CodeSnippet.p_row (CodeSnippet.r_start range)
                   - CodeSnippet.startLine props)%Z,
                  CodeSnippet.p_column (CodeSnippet.r_start range)),
                 ((CodeSnippet.p_row (CodeSnippet.r_end range)
                   - CodeSnippet.startLine props)%Z,
                  CodeSnippet.p_column (CodeSnippet.r_end range))))
  /\ match default [] (CodeSnippet.highlights props) with
     | [] => scrollsOf (CodeSnippet.componentDidMount props) = []
     | first :: _ =>
         exists position,
           scrollsOf (CodeSnippet.componentDidMount props) = [position]
           /\ last (CodeSnippet.componentDidMount props)
              = Some (CodeSnippet.scrollToBufferPosition position)
           /\ ((- 2 ^ 53 <= CodeSnippet.p_row (CodeSnippet.r_end first)
                            - CodeSnippet.startLine props < 2 ^ 53)%Z ->
               position
               = ((CodeSnippet.p_row (CodeSnippet.r_end first)
                   - CodeSnippet.startLine props + 1)%Z,
                  CodeSnippet.p_column (CodeSnippet.r_end first)))
     end.
Proof.
  destruct props as [grammar highlights startLine endLine].
  unfold CodeSnippet.componentDidMount. simpl.
  set (both := fun range : CodeSnippet.BufferRange =>
                 [ CodeSnippet.markBufferRange
                     (CodeSnippet.markedRange startLine range);
                   CodeSnippet.decorateMarker
                     (CodeSnippet.markedRange startLine range) "highlight"
                     "code-snippet-highlight" ]).
  assert (Hmarks : forall hs,
             marksOf (flat_map both hs)
             = map (CodeSnippet.markedRange startLine) hs).
  { induction hs as [| h hs IH]; [reflexivity |]. simpl. now rewrite IH. }
  assert (Hdecs : forall hs,
             decorationsOf (flat_map both hs)
             = map (CodeSnippet.markedRange startLine) hs).
  { induction hs as [| h hs IH]; [reflexivity |]. simpl. now rewrite IH. }
  assert (Hscroll : forall hs, scrollsOf (flat_map both hs) = []).
  { induction hs as [| h hs IH]; [reflexivity |]. simpl. exact IH. }
  assert (Hg : marksOf (match grammar with
                        | Some g => [CodeSnippet.setGrammar g]
                        | None => []
                        end) = []
               /\ decorationsOf (match grammar with
                                 | Some g => [CodeSnippet.setGrammar g]
                                 | None => []
                                 end) = []
               /\ scrollsOf (match grammar with
                             | Some g => [CodeSnippet.setGrammar g]
                             | None => []
                             end) = []).
  { destruct grammar; repeat split; reflexivity. }
  destruct Hg as (Hg1 & Hg2 & Hg3).
  rewrite marksOf_app, decorationsOf_app, scrollsOf_app, Hg1, Hg2, Hg3.
  simpl app.
  assert (Hall : marksOf
                   match highlights with
                   | Some hs =>
                       (flat_map both hs
                        ++ match hs with
                           | first :: _ =>
                               [ CodeSnippet.scrollToBufferPosition
                                   (CodeSnippet.add
                                      (CodeSnippet.sub
                                         (CodeSnippet.p_row
                                            (CodeSnippet.r_end first))
                                         startLine) 1,
                                    CodeSnippet.p_column
                                      (CodeSnippet.r_end first)) ]
                           | [] => []
                           end)%list
                   | None => []
                   end
                 = map (CodeSnippet.markedRange startLine)
                     (default [] highlights)).
  { destruct highlights as [hs|]; [| reflexivity].
    rewrite marksOf_app, Hmarks. destruct hs; simpl; now rewrite ?app_nil_r. }
  split; [| split; [| split]].
  - rewrite Hall. apply length_map.
  - destruct highlights as [hs|]; [| reflexivity].
    rewrite marksOf_app, decorationsOf_app, Hmarks, Hdecs.
    destruct hs; reflexivity.
  - intros k range Hk Hstart Hend. rewrite Hall, list_lookup_fmap, Hk.
    simpl. unfold CodeSnippet.markedRange, CodeSnippet.sub.
    now rewrite !nearestDouble_exact by assumption.
  - destruct highlights as [[| first hs]|]; simpl default; try reflexivity.
    eexists. split; [| split].
    + rewrite scrollsOf_app, Hscroll. reflexivity.
    + rewrite app_assoc. apply last_snoc.
    + intros Hrow. unfold CodeSnippet.add, CodeSnippet.sub.
      rewrite (nearestDouble_exact (_ - _)) by lia.
      now rewrite nearestDouble_exact by lia.
Qed.

(** ** The further properties on concrete inputs *)

Lemma substring_length_le n : forall m s,
  String.length (String.substring n m s) <= m.
Proof.
  induction n as [| n IH]; intros m s.
  - revert s. induction m as [| m IHm]; intros [| c s]; simpl; try lia.
    specialize (IHm s). lia.
  - destruct s as [| c s]; simpl.
    + destruct m; simpl; lia.
    + apply IH.
Qed.

Lemma spanLength_le p s : Demo.spanLength p s <= String.length s.
Proof.
  induction s as [| c s IH]; simpl; [lia |]. destruct (p c); lia.
Qed.

Lemma demo_stays_in_line : staysInLine Demo.collaborators.
Proof.
  intros stream state Heol. simpl. unfold Demo.token.
  unfold eol in Heol. apply negb_false_iff, Nat.ltb_lt in Heol.
  pose proof (substring_length_le (position stream)
                (String.length (sourceText stream) - position stream)
                (sourceText stream)) as Hrest.
  fold (Demo.remaining stream) in Hrest.
  destruct (Demo.remaining stream) as [| c rest] eqn:Hrem; simpl;
    [split; [reflexivity | lia] |].
  destruct (Demo.isSpace c) eqn:Hc; simpl.
  - split; [reflexivity |].
    pose proof (spanLength_le Demo.isSpace rest). simpl in Hrest. lia.
  - match goal with
    | |- context [Demo.word ?w ?s] => destruct (Demo.word w s) as [style state']
    end.
    simpl. split; [reflexivity |].
    pose proof (spanLength_le (fun c => negb (Demo.isSpace c)) rest).
    simpl in Hrest. lia.
Qed.

Lemma first_matching_argument_wins_witness :
  argDefs heroContext
  = Some ([mkArgument "episode" (NamedType "Episode") (Some "which film")]
          ++ mkArgument "flag" Demo.boolean None :: [])%list
  /\ argDef (@typeInfoVisit Demo.collaborators Demo.schema heroContext
               flagArgument)
     = Some (mkArgument "flag" Demo.boolean None)
  /\ inputType (@typeInfoVisit Demo.collaborators Demo.schema heroContext
                  flagArgument)
     = Some Demo.boolean.
Proof.
  split; [reflexivity |].
  apply (@first_matching_argument_wins Demo.collaborators Demo.schema
           heroContext flagArgument
           [mkArgument "episode" (NamedType "Episode") (Some "which film")]
           (mkArgument "flag" Demo.boolean None) []);
    try reflexivity.
  intros b [<- | []]. discriminate.
Defined.

Lemma unnamed_kinds_keep_context_witness :
  @getTypeInfo Demo.collaborators Demo.schema (tok_state invalidToken)
  = @getTypeInfo Demo.collaborators Demo.schema
      (mkState (Some "SelectionSet") 1 None None (Some Demo.start)).
Proof.
  apply (@unnamed_kinds_keep_context Demo.collaborators Demo.schema
           (tok_state invalidToken)).
  intros k [= <-] Hin. simpl in Hin.
  repeat (destruct Hin as [Hin | Hin]; [discriminate Hin |]). exact Hin.
Defined.

Lemma nested_selection_parent_witness :
  getQueryType Demo.schema = Some "Query"
  /\ @getFieldDef Demo.collaborators Demo.schema "Query" "hero"
     = Some heroFieldDef
  /\ parentType (@getTypeInfo Demo.collaborators Demo.schema heroSelection)
     = Some "Character".
Proof.
  split; [reflexivity | split; [reflexivity |]].
  apply (@nested_selection_parent Demo.collaborators Demo.schema "Query" "hero"
           heroFieldDef queryState selectionState heroFieldState heroSelection);
    try reflexivity.
  discriminate.
Defined.

Lemma unresolved_definitions_give_nothing_witness :
  kind heroArguments = Some "Arguments"
  /\ @suggestionsAt Demo.collaborators 0 Demo.schema "" (mkPoint 0 0)
       blankToken heroArguments noTypeInfo = Some [].
Proof.
  split; [reflexivity |].
  apply (@unresolved_definitions_give_nothing Demo.collaborators).
  left. split; [left |]; reflexivity.
Defined.

Lemma undispatched_kinds_give_nothing_witness :
  @suggestionsAt Demo.collaborators 0 Demo.schema "" (mkPoint 0 0) blankToken
    queryState noTypeInfo = Some [].
Proof.
  apply (@undispatched_kinds_give_nothing Demo.collaborators).
  intros k [= <-] Hin. simpl in Hin.
  repeat (destruct Hin as [Hin | Hin]; [discriminate Hin |]). exact Hin.
Defined.

Lemma off_step_gives_nothing_witness :
  step colonArgument = 1
  /\ @suggestionsAt Demo.collaborators 0 Demo.schema "" (mkPoint 0 0)
       blankToken colonArgument heroContext = Some [].
Proof.
  split; [reflexivity |].
  apply (@off_step_gives_nothing Demo.collaborators).
  left. split; [left; reflexivity | split; discriminate].
Defined.

Lemma named_type_follows_enclosing_state_witness :
  @suggestionsAt Demo.collaborators 0 Demo.schema "" (mkPoint 0 0) blankToken
    conditionType characterContext
  = Some (@getSuggestionsForFragmentTypeConditions Demo.collaborators
            (mkPoint 0 0) blankToken characterContext Demo.schema).
Proof.
  apply (@named_type_follows_enclosing_state Demo.collaborators 0 Demo.schema
           "" (mkPoint 0 0) blankToken conditionType characterContext).
  reflexivity.
Defined.

Lemma scan_ends_in_a_kind_or_the_start_witness :
  exists tk vars,
    @runOnlineParser Demo.collaborators _ 4 twoLines
      (atCursorCallback (mkPoint 0 0)) nothingAtCursor = Some (tk, vars)
    /\ (truthy (kind (tok_state tk)) = true
        \/ tok_state tk = @startState Demo.collaborators).
Proof.
  eexists. eexists. split; [vm_compute; reflexivity |].
  eapply (@scan_ends_in_a_kind_or_the_start Demo.collaborators AtCursor
            (atCursorCallback (mkPoint 0 0)) 4 twoLines nothingAtCursor).
  vm_compute. reflexivity.
Defined.

Lemma cursor_below_text_gets_last_token_witness :
  exists last vars,
    length (split "{ a") <= 5
    /\ @runOnlineParser Demo.collaborators _ 3 "{ a"
         (atCursorCallback (mkPoint 5 0)) nothingAtCursor = Some (last, vars)
    /\ vars = nothingAtCursor
    /\ @getTokenAtPosition Demo.collaborators 3 "{ a" (mkPoint 5 0)
       = Some last.
Proof.
  eexists. eexists. split; [simpl; lia |].
  split; [vm_compute; reflexivity |].
  eapply (@cursor_below_text_gets_last_token Demo.collaborators 3 "{ a"
            (mkPoint 5 0)).
  - simpl. lia.
  - vm_compute. reflexivity.
Defined.

Lemma line_before_cursor_is_captured_witness :
  exists stream' state' style' vars',
    staysInLine Demo.collaborators
    /\ @lexLine Demo.collaborators _ 3 (atCursorCallback (mkPoint 0 9)) 0
         (newCharacterStream "{ a") Demo.start "" nothingAtCursor
       = Some (stream', state', style', vars')
    /\ eol stream' = true
    /\ ((stream', state', style', vars')
        = (newCharacterStream "{ a", Demo.start, "", nothingAtCursor)
        \/ vars' = mkAtCursor (Some style') (Some state')
                     (Some (current stream'))).
Proof.
  do 4 eexists. split; [exact demo_stays_in_line |].
  split; [vm_compute; reflexivity |].
  eapply (@line_before_cursor_is_captured Demo.collaborators (mkPoint 0 9) 3
            demo_stays_in_line (newCharacterStream "{ a") Demo.start ""
            nothingAtCursor).
  - simpl. lia.
  - vm_compute. reflexivity.
Defined.

Lemma harvested_fragments_are_named_witness :
  @getFragmentDefinitions Demo.collaborators 52 spreadText
  = Some [mkFragment "F" "Character"; mkFragment "F" "Character"]
  /\ forall frag,
       In frag [mkFragment "F" "Character"; mkFragment "F" "Character"] ->
       frag_name frag <> "" /\ frag_typeCondition frag <> "".
Proof.
  split; [vm_compute; reflexivity |].
  apply (@harvested_fragments_are_named Demo.collaborators 52 spreadText).
  vm_compute. reflexivity.
Defined.

Lemma no_spread_without_composite_parent_witness :
  isCompositeType Demo.schema (parentType booleanContext) = false
  /\ @getSuggestionsForFragmentSpread Demo.collaborators 52 (mkPoint 0 52)
       blankToken booleanContext Demo.schema spreadText
     = Some (@hintList Demo.collaborators (mkPoint 0 52) blankToken []).
Proof.
  split; [reflexivity |].
  apply (@no_spread_without_composite_parent Demo.collaborators 52
           (mkPoint 0 52) blankToken booleanContext Demo.schema spreadText
           [mkFragment "F" "Character"; mkFragment "F" "Character"]).
  - vm_compute. reflexivity.
  - reflexivity.
Defined.

Lemma relevant_fragments_are_offered_witness :
  parentType characterContext = Some "Character"
  /\ exists raw,
       @getSuggestionsForFragmentSpread Demo.collaborators 52 (mkPoint 0 52)
         blankToken characterContext Demo.schema spreadText
       = Some (@hintList Demo.collaborators (mkPoint 0 52) blankToken raw)
       /\ In (fragmentSuggestion (mkFragment "F" "Character")) raw.
Proof.
  split; [reflexivity |].
  destruct (@relevant_fragments_are_offered Demo.collaborators 52
              (mkPoint 0 52) blankToken characterContext Demo.schema spreadText
              [mkFragment "F" "Character"; mkFragment "F" "Character"]
              "Character")
    as (raw & Hraw & _ & Hin);
    [vm_compute; reflexivity | reflexivity | reflexivity |].
  exists raw. split; [exact Hraw |].
  apply Hin.
  - now left.
  - eexists. vm_compute. reflexivity.
  - intros d Hd Hk. vm_compute in Hd. injection Hd as <-. discriminate Hk.
  - reflexivity.
  - reflexivity.
Defined.

Lemma abstract_parent_type_conditions_witness :
  isAbstractType Demo.schema "Character" = true
  /\ exists ifaces,
       @getSuggestionsForFragmentTypeConditions Demo.collaborators
         (mkPoint 0 0) blankToken characterContext Demo.schema
       = @hintList Demo.collaborators (mkPoint 0 0) blankToken
           (map (fun n => typeNameSuggestion n (descriptionOf Demo.schema n))
              (getPossibleTypes Demo.schema "Character" ++ ifaces)%list)
       /\ NoDup ifaces
       /\ forall n, In n ifaces <->
                    exists t, In t (getPossibleTypes Demo.schema "Character")
                              /\ In n (getInterfaces Demo.schema t).
Proof.
  split; [reflexivity |].
  apply (@abstract_parent_type_conditions Demo.collaborators (mkPoint 0 0)
           blankToken characterContext Demo.schema "Character");
    reflexivity.
Defined.



Lemma highlights_are_marked_and_decorated_witness :
  marksOf (CodeSnippet.componentDidMount snippetProps) !! 0
  = Some ((1, 2), (1, 6))%Z
  /\ scrollsOf (CodeSnippet.componentDidMount snippetProps) = [(2, 6)%Z].
Proof.
  destruct (highlights_are_marked_and_decorated snippetProps)
    as (_ & _ & Hmark & position & Hscroll & _ & Hposition).
  split.
  - apply (Hmark 0 (CodeSnippet.mkBufferRange (CodeSnippet.mkBufferPoint 11 2)
                      (CodeSnippet.mkBufferPoint 11 6)) eq_refl);
      simpl; lia.
  - rewrite Hscroll, Hposition by (simpl; lia). reflexivity.
Defined.

Section InputContext.
Context {ext : Collaborators}.

(** *** Input types along the chain *)

(** X6. Entering a list literal: an input type [[T]] or [[T]!] becomes [T]; any
    other input type becomes unknown, and the input-value generator then
    offers nothing. *)
Theorem list_value_descends_one_level schema st prev cursor tk :
  kind st = Some "ListValue" -> prevState st = Some prev ->
  match getNullableType (inputType (getTypeInfo schema prev)) with
  | Some (GraphQLList ofType) =>
      inputType (getTypeInfo schema st) = Some ofType
  | _ =>
      inputType (getTypeInfo schema st) = None
      /\ getSuggestionsForInputValues schema cursor tk (getTypeInfo schema st)
         = []
  end.
Proof.
  intros Hk Hprev. rewrite (getTypeInfo_link _ _ _ Hprev).
  unfold typeInfoVisit. rewrite Hk. cbv beta iota zeta delta [strictEq].
  simpl String.eqb. simpl.
  destruct (getNullableType (inputType (getTypeInfo schema prev)))
    as [[n | ofType | ofType]|]; simpl; try (split; reflexivity).
Qed.

(** X7. An input-object field: the input type becomes the type of the first
    field definition with the name of the state, and unknown when the name
    is empty, when no definition has it or when no field definitions are in
    scope; the earlier input type never survives. *)
Theorem object_field_resets_input_type schema i st :
  kind st = Some "ObjectField" ->
  inputType (typeInfoVisit schema i st)
  = match name st, objectFieldDefs i with
    | Some n, Some defs =>
        if String.eqb n "" then None
        else ifield_type
               <$> List.find (fun f => String.eqb (ifield_name f) n) defs
    | _, _ => None
    end.
Proof.
  intros Hk. unfold typeInfoVisit, whenTruthy, find. rewrite Hk.
  cbv beta iota zeta delta [strictEq]. simpl String.eqb. simpl.
  destruct (name st) as [n|]; simpl; [| reflexivity].
  destruct (objectFieldDefs i), (String.eqb n ""); reflexivity.
Qed.

(** X8. The enum literal resolved at an EnumValue state is a declared member of
    the enum type the input type names, and its value is the name of the
    state. *)
Theorem resolved_enum_value_is_a_member schema i st value :
  kind st = Some "EnumValue" ->
  enumValue (typeInfoVisit schema i st) = Some value ->
  exists enumType values,
    getNamedType (inputType i) = Some enumType
    /\ definitionOf schema enumType = Some (GraphQLEnumType values)
    /\ In value values
    /\ name st = Some (enum_value value).
Proof.
  intros Hk. unfold typeInfoVisit, find. rewrite Hk.
  cbv beta iota zeta delta [strictEq]. simpl String.eqb. simpl.
  destruct (getNamedType (inputType i)) as [enumType|] eqn:Hnamed; simpl;
    [| discriminate].
  destruct (definitionOf schema enumType) as [[]|] eqn:Hdef;
    try discriminate.
  intros Hfind. apply List.find_some in Hfind as [Hin Heq].
  apply bool_decide_eq_true in Heq.
  exists enumType, values.
  split; [reflexivity | split; [exact Hdef | split]];
    [exact Hin | symmetry; exact Heq].
Qed.

(** *** Arguments of an unknown callee *)

Lemma arguments_without_definitions fuel schema queryText cursor tk state
    typeInfo :
  kind state = Some "Arguments" -> argDefs typeInfo = None ->
  suggestionsAt fuel schema queryText cursor tk state typeInfo = Some [].
Proof.
  intros Hk Hdefs. unfold suggestionsAt. cbv zeta. rewrite Hk, Hdefs.
  reflexivity.
Qed.

(** X10. The arguments of a directive the schema does not have, and the
    arguments of a field no type of the schema has: the argument
    definitions are unknown and the dispatcher returns the empty list. *)
Theorem unknown_callee_offers_no_argument fuel schema queryText cursor tk
    (callee arguments : State) n :
  kind arguments = Some "Arguments" -> prevState arguments = Some callee ->
  name callee = Some n ->
  kind callee = Some "Directive" /\ getDirective schema n = None
  \/ kind callee = Some "Field"
     /\ (forall parent, getFieldDef schema parent n = None) ->
  argDefs (getTypeInfo schema arguments) = None
  /\ suggestionsAt fuel schema queryText cursor tk arguments
       (getTypeInfo schema arguments) = Some [].
Proof.
  intros Hk Hprev Hn Hcallee.
  assert (Hdefs : argDefs (getTypeInfo schema arguments) = None).
  { rewrite (getTypeInfo_link _ _ _ Hprev).
    unfold typeInfoVisit at 1. rewrite Hk, Hprev.
    cbv beta iota zeta delta [strictEq]. simpl String.eqb. simpl.
    unfold argDefsFor.
    set (outer := match prevState callee with
                  | Some p => getTypeInfo schema p
                  | None => noTypeInfo
                  end).
    assert (Hctx : getTypeInfo schema callee = typeInfoVisit schema outer callee).
    { unfold outer. destruct (prevState callee) as [p|] eqn:Hp.
      - now apply getTypeInfo_link.
      - now apply getTypeInfo_root. }
    rewrite Hctx. clear Hctx.
    destruct Hcallee as [[Hc Hnone] | [Hc Hnone]]; rewrite Hc;
      cbv beta iota zeta delta [strictEq]; simpl String.eqb; simpl;
      unfold typeInfoVisit, whenTruthy; rewrite Hc, Hn;
      cbv beta iota zeta delta [strictEq]; simpl String.eqb; simpl.
    - destruct (negb (String.eqb n "")); simpl; [now rewrite Hnone |];
        reflexivity.
    - destruct (ti_type outer); [| reflexivity].
      destruct (negb (String.eqb n "")); [| reflexivity].
      destruct (parentType outer); [rewrite Hnone |]; reflexivity. }
  split; [assumption |].
  now apply arguments_without_definitions.
Qed.

End InputContext.

Lemma list_value_descends_one_level_witness :
  inputType (@getTypeInfo Demo.collaborators Demo.schema flagArgument)
  = Some Demo.boolean
  /\ inputType (@getTypeInfo Demo.collaborators Demo.schema listUnderFlag)
     = None
  /\ @getSuggestionsForInputValues Demo.collaborators Demo.schema (mkPoint 0 0)
       blankToken (@getTypeInfo Demo.collaborators Demo.schema listUnderFlag)
     = [].
Proof.
  split; [vm_compute; reflexivity |].
  exact (@list_value_descends_one_level Demo.collaborators Demo.schema
           listUnderFlag flagArgument (mkPoint 0 0) blankToken eq_refl eq_refl).
Defined.

Lemma object_field_resets_input_type_witness :
  inputType (@typeInfoVisit Demo.collaborators Demo.schema episodeContext
               objectFieldX) = None.
Proof.
  rewrite (@object_field_resets_input_type Demo.collaborators Demo.schema
             episodeContext objectFieldX eq_refl).
  reflexivity.
Defined.

Lemma resolved_enum_value_is_a_member_witness :
  enumValue (@typeInfoVisit Demo.collaborators Demo.schema episodeContext
               empireValue)
  = Some (mkEnumValue "EMPIRE" "EMPIRE" None (Some true) (Some "later"))
  /\ exists enumType values,
       getNamedType (inputType episodeContext) = Some enumType
       /\ definitionOf Demo.schema enumType = Some (GraphQLEnumType values)
       /\ In (mkEnumValue "EMPIRE" "EMPIRE" None (Some true) (Some "later"))
            values
       /\ name empireValue = Some "EMPIRE".
Proof.
  split; [vm_compute; reflexivity |].
  apply (@resolved_enum_value_is_a_member Demo.collaborators Demo.schema
           episodeContext empireValue
           (mkEnumValue "EMPIRE" "EMPIRE" None (Some true) (Some "later")));
    [reflexivity | vm_compute; reflexivity].
Defined.

Lemma unknown_callee_offers_no_argument_witness :
  getDirective Demo.schema "nope" = None
  /\ argDefs (@getTypeInfo Demo.collaborators Demo.schema
                unknownDirectiveArguments) = None
  /\ @suggestionsAt Demo.collaborators 0 Demo.schema "" (mkPoint 0 0)
       blankToken unknownDirectiveArguments
       (@getTypeInfo Demo.collaborators Demo.schema unknownDirectiveArguments)
     = Some [].
Proof.
  split; [reflexivity |].
  apply (@unknown_callee_offers_no_argument Demo.collaborators 0 Demo.schema ""
           (mkPoint 0 0) blankToken unknownDirective unknownDirectiveArguments
           "nope"); try reflexivity.
  left. split; reflexivity.
Defined.

Lemma unknown_field_resets_witness :
  @getFieldDef Demo.collaborators Demo.schema "Query" "zzz" = None
  /\ fieldDef (@typeInfoVisit Demo.collaborators Demo.schema
                 (set_parentType (Some "Query")
                    (set_type (Some (NamedType "Query")) noTypeInfo))
                 (mkState (Some "Field") 1 (Some "zzz") None None)) = None
  /\ ti_type (@typeInfoVisit Demo.collaborators Demo.schema
                (set_parentType (Some "Query")
                   (set_type (Some (NamedType "Query")) noTypeInfo))
                (mkState (Some "Field") 1 (Some "zzz") None None)) = None.
Proof.
  split; [reflexivity |].
  apply (@unknown_field_resets Demo.collaborators Demo.schema
           (set_parentType (Some "Query")
              (set_type (Some (NamedType "Query")) noTypeInfo))
           (mkState (Some "Field") 1 (Some "zzz") None None) "Query" "zzz");
    try reflexivity.
  eexists. reflexivity.
Defined.

(** ** Unresolved names along a chain *)

Section Unresolved.
Context {ext : Collaborators}.








End Unresolved.

